(** * Genre request handlers (controllers/genreController.js)

    A shallow embedding of the Express handlers of the Genre controller and
    of the collaborators they call: the validation chain of express-validator,
    the document store behind the Genre and Book models, and the response
    object.  A handler is a computation over a [World] (the two collections,
    the ObjectId generator and the failures the store is going to report)
    that leaves a trace of [Event]s: the store calls it issued and the calls
    it made on [res] and [next]. *)

From Stdlib Require Import Ascii.
From stdpp Require Import gmap strings list fin_maps sorting pretty.

(** ** Sanitizers and validators (validator.js, as used by express-validator)

    A string is a sequence of code units below 256. *)

Module Validator.

(** The characters matched by the regular expression class [\s] among the
    code units below 256: tab, line feed, vertical tab, form feed, carriage
    return, space and no-break space. *)
Definition is_whitespace (c : ascii) : bool :=
  match c with
  | "009" | "010" | "011" | "012" | "013" | " " | "160" => true
  | _ => false
  end%char.

Fixpoint ltrim (s : string) : string :=
  match s with
  | String c s' => if is_whitespace c then ltrim s' else s
  | EmptyString => EmptyString
  end.

(** [rtrim] walks down from the last character while it is whitespace. *)
Fixpoint rtrim (s : string) : string :=
  match s with
  | String c s' =>
      match rtrim s' with
      | EmptyString => if is_whitespace c then EmptyString else String c EmptyString
      | r => String c r
      end
  | EmptyString => EmptyString
  end.

Definition trim (s : string) : string := rtrim (ltrim s).

(** [isLength(str, { min })]: no surrogate pairs below 256, so the length
    is the number of code units; no [max] is given. *)
Definition isLength (min : nat) (s : string) : bool :=
  bool_decide (min <= String.length s).

(** [escape] replaces the ampersand, the two quotes, the angle brackets,
    the slash, the backslash and the backquote by HTML entities. *)
Definition escape_char (c : ascii) : string :=
  match c with
  | "&"%char => "&amp;"
  | "034"%char => "&quot;"
  | "'"%char => "&#x27;"
  | "<"%char => "&lt;"
  | ">"%char => "&gt;"
  | "/"%char => "&#x2F;"
  | "\"%char => "&#x5C;"
  | "`"%char => "&#96;"
  | _ => String c EmptyString
  end.

Fixpoint escape (s : string) : string :=
  match s with
  | String c s' => escape_char c +:+ escape s'
  | EmptyString => EmptyString
  end.

(** The characters no escaped string contains. *)
Definition is_markup (c : ascii) : bool :=
  match c with
  | "034" | "'" | "<" | ">" | "/" | "\" | "`" => true
  | _ => false
  end%char.

Fixpoint has_markup (s : string) : bool :=
  match s with
  | String c s' => is_markup c || has_markup s'
  | EmptyString => false
  end.

End Validator.

(** ** Documents, requests and responses *)

Abbreviation Id := nat.

(** A Genre document. *)
Record Genre := { _id : Id; name : string }.

(** Modelled from the spec: models/book.js is not part of the controller; a
    Book refers to its Genre by id through its [genre] field. *)
Record Book := { book_id : Id; book_title : string; book_genre : Id }.

#[global] Instance Genre_eq_dec : EqDecision Genre.
Proof. solve_decision. Defined.
#[global] Instance Book_eq_dec : EqDecision Book.
Proof. solve_decision. Defined.

(** An error handed to [next]: a JavaScript [Error] with its optional
    [status]. *)
Record Error := { message : string; status : option nat }.

(** One entry of [validationResult(req).array()]. *)
Record ValidationError :=
  { value : string; msg : string; param : string; location : string }.

(** The request: the route parameter [req.params.id], the form fields
    [req.body.name] and [req.body.genreid], and the errors the validation
    chains that ran on the request have recorded. *)
Record Request :=
  { params_id : Id;
    body_name : string;
    body_genreid : Id;
    validation_errors : list ValidationError }.

(** The locals handed to [res.render]: for a key, [None] says the key is
    absent; the [genre] key can be present and hold [null]. *)
Module View.
Record Context :=
  { title : string;
    genre : option (option Genre);
    genre_books : option (list Book);
    genre_list : option (list Genre);
    errors : option (list ValidationError) }.
End View.
Abbreviation Context := View.Context.

(** The calls on the store. *)
Inductive StoreOp :=
| Genre_find_sort_name_ascending
| Genre_findById (id : Id)
| Book_find_genre (id : Id)
| Genre_findOne_name (n : string)
| Genre_save (doc : Genre)
| Genre_findByIdAndRemove (id : Id)
| Genre_findByIdAndUpdate (id : Id) (doc : Genre).

(** What a handler does that can be seen from outside. *)
Inductive Event :=
| Store (op : StoreOp)
| Render (view : string) (locals : Context)
| Redirect (loc : string)
| Next (err : Error)
| Throw (what : string).

(** The world a handler runs in: the Genre collection keyed by [_id], the
    Book collection, the next ObjectId the driver hands out, and for each
    store call the error it fails with, if any. *)
Record World :=
  { genres : gmap nat string;
    books : list Book;
    next_oid : Id;
    fault : StoreOp -> option Error }.

Definition healthy (w : World) : Prop := forall op, fault w op = None.

(** ** Handlers as computations *)

Definition Eff (A : Type) : Type := World -> A * World * list Event.

Definition ret {A} (a : A) : Eff A := fun w => (a, w, []).

Definition bind {A B} (m : Eff A) (k : A -> Eff B) : Eff B :=
  fun w =>
    let '(a, w1, t1) := m w in
    let '(b, w2, t2) := k a w1 in
    (b, w2, t1 ++ t2).

Notation "x <- m ;; k" := (bind m (fun x => k))
  (at level 100, m at next level, right associativity).
Notation "m ;;; k" := (bind m (fun _ => k))
  (at level 100, right associativity).

Definition emit (e : Event) : Eff unit := fun w => (tt, w, [e]).

Definition render (view : string) (locals : Context) : Eff unit :=
  emit (Render view locals).
Definition redirect (loc : string) : Eff unit := emit (Redirect loc).
Definition next (err : Error) : Eff unit := emit (Next err).
Definition throw (what : string) : Eff unit := emit (Throw what).

Definition trace {A} (r : A * World * list Event) : list Event := r.2.
Definition world_after {A} (r : A * World * list Event) : World := r.1.2.

(** The store calls a trace holds. *)
Definition store_calls (t : list Event) : list StoreOp :=
  omap (fun e => match e with Store op => Some op | _ => None end) t.

(** The responses a trace holds: everything but the store calls. *)
Definition is_response (e : Event) : bool :=
  match e with Store _ => false | _ => true end.

Definition responses (t : list Event) : list Event :=
  filter (fun e => is_response e) t.

(** ** The store (the query interface of the Genre and Book models)

    Modelled from the spec: models/genre.js and models/book.js are not part
    of the controller.  The store keeps one Genre per [_id]; a call either
    fails with the error [fault] holds for it or answers from the
    collections. *)

Definition doc (entry : nat * string) : Genre :=
  {| _id := entry.1; name := entry.2 |}.

(** All Genre documents, in the order the store scans them. *)
Definition all_genres (w : World) : list Genre := doc <$> map_to_list (genres w).

(** The Genre of an id, if the store holds one. *)
Definition genre_by_id (w : World) (id : Id) : option Genre :=
  (fun n => {| _id := id; name := n |}) <$> genres w !! id.

(** The Books whose [genre] field is the id. *)
Definition dependent_books (w : World) (id : Id) : list Book :=
  filter (fun b => book_genre b = id) (books w).

(** Ascending by name: strings compared code unit by code unit, the
    comparison the store sorts with when no collation is set. *)
Definition name_le (g1 g2 : Genre) : Prop := String.le (name g1) (name g2).

#[global] Instance name_le_dec : RelDecision name_le.
Proof. intros g1 g2. unfold name_le. apply _. Defined.

Definition set_genres (w : World) (m : gmap nat string) : World :=
  {| genres := m; books := books w; next_oid := next_oid w; fault := fault w |}.

Definition exec {A} (op : StoreOp) (run : World -> Error + A * World) :
    Eff (Error + A) :=
  fun w =>
    match fault w op with
    | Some e => (inl e, w, [Store op])
    | None =>
        match run w with
        | inl e => (inl e, w, [Store op])
        | inr (a, w') => (inr a, w', [Store op])
        end
    end.

Definition duplicate_key : Error :=
  {| message := "E11000 duplicate key error collection"; status := None |}.

(** [Genre.find().sort([['name', 'ascending']]).exec(cb)] *)
Definition Genre_find_sorted : Eff (Error + list Genre) :=
  exec Genre_find_sort_name_ascending
    (fun w => inr (merge_sort name_le (all_genres w), w)).

(** [Genre.findById(id).exec(cb)] *)
Definition Genre_findById_exec (id : Id) : Eff (Error + option Genre) :=
  exec (Genre_findById id)
    (fun w => inr (genre_by_id w id, w)).

(** [Book.find({ genre: id }).exec(cb)] *)
Definition Book_find_exec (id : Id) : Eff (Error + list Book) :=
  exec (Book_find_genre id)
    (fun w => inr (dependent_books w id, w)).

(** [Genre.findOne({ name: n }).exec(cb)]: the first document of that name. *)
Definition Genre_findOne_exec (n : string) : Eff (Error + option Genre) :=
  exec (Genre_findOne_name n)
    (fun w => inr (head (filter (fun g => name g = n) (all_genres w)), w)).

(** [genre.save(cb)] of a new document: an insert, refused when the [_id] is
    taken. *)
Definition Genre_save_exec (g : Genre) : Eff (Error + unit) :=
  exec (Genre_save g)
    (fun w =>
       match genres w !! _id g with
       | Some _ => inl duplicate_key
       | None => inr (tt, set_genres w (<[_id g := name g]> (genres w)))
       end).

(** [Genre.findByIdAndRemove(id, cb)]: removes the document, if there is one. *)
Definition Genre_findByIdAndRemove_exec (id : Id) : Eff (Error + option Genre) :=
  exec (Genre_findByIdAndRemove id)
    (fun w =>
       inr (genre_by_id w id, set_genres w (delete id (genres w)))).

(** [Genre.findByIdAndUpdate(id, doc, {}, cb)]: sets the fields of [doc] on
    the document found and answers the document as it was before; with no
    document of that id nothing is written and the answer is [null]. *)
Definition Genre_findByIdAndUpdate_exec (id : Id) (g : Genre) :
    Eff (Error + option Genre) :=
  exec (Genre_findByIdAndUpdate id g)
    (fun w =>
       match genres w !! id with
       | Some n =>
           inr (Some {| _id := id; name := n |},
                set_genres w (<[id := name g]> (genres w)))
       | None => inr (None, w)
       end).

(** The driver hands out its next ObjectId. *)
Definition draw_oid (w : World) : World :=
  {| genres := genres w; books := books w; next_oid := S (next_oid w);
     fault := fault w |}.

(** [new Genre({ name, _id })]: without an [_id] the document takes the next
    ObjectId of the driver. *)
Definition new_Genre (n : string) (id : option Id) : Eff Genre :=
  match id with
  | Some i => ret {| _id := i; name := n |}
  | None => fun w => ({| _id := next_oid w; name := n |}, draw_oid w, [])
  end.

(** Modelled from the spec: the [url] virtual of models/genre.js, a location
    of the form /catalog/genre/{id}. *)
Definition url (g : Genre) : string := "/catalog/genre/" +:+ pretty (_id g).

(** [async.parallel] over two tasks: both are started, and the callback gets
    the first error or both results. *)
Definition async_parallel2 {A B} (t1 : Eff (Error + A)) (t2 : Eff (Error + B)) :
    Eff (Error + A * B) :=
  r1 <- t1 ;;
  r2 <- t2 ;;
  ret match r1, r2 with
      | inl err, _ => inl err
      | inr _, inl err => inl err
      | inr a, inr b => inr (a, b)
      end.

Definition async_parallel1 {A} (t1 : Eff (Error + A)) : Eff (Error + A) := t1.

(** ** Validation chains and the middleware stack *)

Inductive Step :=
| Sanitize (f : string -> string)
| Validate (p : string -> bool).

Definition trim : Step := Sanitize Validator.trim.
Definition isLength (min : nat) : Step := Validate (Validator.isLength min).
Definition escape : Step := Sanitize Validator.escape.

(** The name as the chain [trim, isLength, escape] leaves it. *)
Definition sanitized (raw : string) : string :=
  Validator.escape (Validator.trim raw).

(** Runs the steps of a chain in order on the field value: a sanitizer
    replaces the value, a validator that fails records an error with the
    value it saw. *)
Fixpoint run_steps (field message : string) (steps : list Step) (v : string)
    (errs : list ValidationError) : string * list ValidationError :=
  match steps with
  | [] => (v, errs)
  | Sanitize f :: rest => run_steps field message rest (f v) errs
  | Validate p :: rest =>
      run_steps field message rest v
        (if p v then errs
         else errs ++ [{| value := v; msg := message; param := field;
                          location := "body" |}])
  end.

(** [body(field, message)] followed by its steps, run on the request; the
    form of this controller has the one text field [name]. *)
Definition body (field message : string) (steps : list Step) (req : Request) :
    Request :=
  if decide (field = "name") then
    let '(v, errs) :=
      run_steps field message steps (body_name req) (validation_errors req) in
    {| params_id := params_id req; body_name := v;
       body_genreid := body_genreid req; validation_errors := errs |}
  else req.

(** [validationResult(req)] *)
Definition validationResult (req : Request) : list ValidationError :=
  validation_errors req.

Definition isEmpty (errs : list ValidationError) : bool :=
  match errs with [] => true | _ => false end.

Inductive Middleware :=
| Chain (run : Request -> Request)
| Handler (h : Request -> Eff unit).

(** The router calls the middleware of a route in order: a chain hands the
    request on, a handler of this controller ends the request. *)
Fixpoint dispatch (stack : list Middleware) (req : Request) : Eff unit :=
  match stack with
  | [] => ret tt
  | Chain c :: rest => dispatch rest (c req)
  | Handler h :: _ => h req
  end.

(** The comma operator of JavaScript: both operands are evaluated and the
    value is the second. *)
Definition comma {A B} (a : A) (b : B) : B := b.

(** ** The handlers *)

Definition locals (t : string) : Context :=
  {| View.title := t; View.genre := None; View.genre_books := None; View.genre_list := None;
     View.errors := None |}.

Definition not_found : Error :=
  {| message := "Genre not found"; status := Some 404 |}.

(** Display list of all Genre. *)
Definition genre_list (req : Request) : Eff unit :=
  r <- Genre_find_sorted ;;
  match r with
  | inl err => next err
  | inr list_genres =>
      render "genre_list"
        {| View.title := "Genre List"; View.genre := None; View.genre_books := None;
           View.genre_list := Some list_genres; View.errors := None |}
  end.

(** Display detail page for a specific Genre. *)
Definition genre_detail (req : Request) : Eff unit :=
  r <- async_parallel2 (Genre_findById_exec (params_id req))
                       (Book_find_exec (params_id req)) ;;
  match r with
  | inl err => next err
  | inr (results_genre, results_genre_books) =>
      match results_genre with
      | None => next not_found
      | Some g =>
          render "genre_detail"
            {| View.title := "Genre Detail"; View.genre := Some (Some g);
               View.genre_books := Some results_genre_books;
               View.genre_list := None; View.errors := None |}
      end
  end.

(** Display Genre create form on GET. *)
Definition genre_create_get (req : Request) : Eff unit :=
  render "genre_form" (locals "Create Genre").

Definition name_message : string :=
  "Genre name must contain at least 2 characters".

(** Handle Genre create on POST: the function behind the validation chain. *)
Definition genre_create_post_handler (req : Request) : Eff unit :=
  let errors := validationResult req in
  genre <- new_Genre (body_name req) None ;;
  if negb (isEmpty errors) then
    render "genre_form"
      {| View.title := "Create Genre"; View.genre := Some (Some genre);
         View.genre_books := None; View.genre_list := None; View.errors := Some errors |}
  else
    r <- Genre_findOne_exec (body_name req) ;;
    match r with
    | inl err => next err
    | inr (Some found_genre) => redirect (url found_genre)
    | inr None =>
        s <- Genre_save_exec genre ;;
        match s with
        | inl err => next err
        | inr _ => redirect (url genre)
        end
    end.

Definition genre_create_post : list Middleware :=
  [ Chain (body "name" name_message [trim; isLength 2; escape]);
    Handler genre_create_post_handler ].

(** Display Genre delete form on GET.  The redirect of the missing Genre is
    not followed by a [return]: the render below it runs as well. *)
Definition genre_delete_get (req : Request) : Eff unit :=
  r <- async_parallel2 (Genre_findById_exec (params_id req))
                       (Book_find_exec (params_id req)) ;;
  match r with
  | inl err => next err
  | inr (results_genre, results_genres_books) =>
      (match results_genre with
       | None => redirect "/catalog/genres"
       | Some _ => ret tt
       end) ;;;
      render "genre_delete"
        {| View.title := "Delete Genre"; View.genre := Some results_genre;
           View.genre_books := Some results_genres_books;
           View.genre_list := None; View.errors := None |}
  end.

(** Handle Genre delete on POST. *)
Definition genre_delete_post (req : Request) : Eff unit :=
  r <- async_parallel2 (Genre_findById_exec (body_genreid req))
                       (Book_find_exec (body_genreid req)) ;;
  match r with
  | inl err => next err
  | inr (results_genre, results_genres_books) =>
      if 0 <? length results_genres_books then
        render "genre_delete"
          {| View.title := "Delete Genre"; View.genre := Some results_genre;
             View.genre_books := Some results_genres_books;
             View.genre_list := None; View.errors := None |}
      else
        d <- Genre_findByIdAndRemove_exec (body_genreid req) ;;
        match d with
        | inl err => next err
        | inr _ => redirect "/catalog/genres"
        end
  end.

(** Display Genre update form on GET. *)
Definition genre_update_get (req : Request) : Eff unit :=
  r <- async_parallel1 (Genre_findById_exec (params_id req)) ;;
  match r with
  | inl err => next err
  | inr results_genre =>
      match results_genre with
      | None => next not_found
      | Some g =>
          render "genre_form"
            {| View.title := "Update Genre"; View.genre := Some (Some g);
               View.genre_books := None; View.genre_list := None; View.errors := None |}
      end
  end.

(** Handle Genre update on POST: the function of the route. *)
Definition genre_update_post_handler (req : Request) : Eff unit :=
  let errors := validationResult req in
  genre <- new_Genre (body_name req) (Some (params_id req)) ;;
  if negb (isEmpty errors) then
    render "genre_form"
      {| View.title := "Create Genre"; View.genre := Some (Some genre);
         View.genre_books := None; View.genre_list := None; View.errors := Some errors |}
  else
    r <- Genre_findByIdAndUpdate_exec (params_id req) genre ;;
    match r with
    | inl err => next err
    | inr (Some thegenre) => redirect (url thegenre)
    | inr None => throw "TypeError: Cannot read properties of null (reading 'url')"
    end.

(** The array of the update route has ONE element: the chain and the function
    stand in one pair of parentheses with a comma between them, which is the
    comma operator, so the chain is built and dropped and only the function
    is in the array. *)
Definition genre_update_post : list Middleware :=
  [ comma (Chain (body "name" name_message [trim; isLength 2; escape]))
          (Handler genre_update_post_handler) ].

(** A request with the given route id, [name] field and [genreid] field, as
    it arrives: no validation chain has run yet. *)
Definition request (id : Id) (n : string) (gid : Id) : Request :=
  {| params_id := id; body_name := n; body_genreid := gid;
     validation_errors := [] |}.

(** The error the name chain records for a value that is too short. *)
Definition length_error (v : string) : ValidationError :=
  {| value := v; msg := "Genre name must contain at least 2 characters";
     param := "name"; location := "body" |}.

(** ** Sample worlds *)

Definition no_fault : StoreOp -> option Error := fun _ => None.

(** The empty store. *)
Definition empty_world : World :=
  {| genres := ∅; books := []; next_oid := 0; fault := no_fault |}.

(** Three Genres created out of name order and one Book of Genre 1. *)
Definition library : World :=
  {| genres := <[2 := "Western"]> (<[1 := "Fiction"]> (<[5 := "Crime"]> ∅));
     books := [ {| book_id := 7; book_title := "Dune"; book_genre := 1 |} ];
     next_oid := 9;
     fault := no_fault |}.

(** A store that holds a Genre whose name is one character long. *)
Definition short_name_world : World :=
  {| genres := {[ 0 := "A" ]}; books := []; next_oid := 1; fault := no_fault |}.

(** ** Classifying store calls and events *)

(** The store calls that write to a collection. *)
Definition is_write (op : StoreOp) : bool :=
  match op with
  | Genre_save _ | Genre_findByIdAndRemove _ | Genre_findByIdAndUpdate _ _ => true
  | _ => false
  end.

Definition is_render (e : Event) : bool :=
  match e with Render _ _ => true | _ => false end.

Definition is_throw (e : Event) : bool :=
  match e with Throw _ => true | _ => false end.

(** A store that has lost its connection for the calls [down] selects. *)
Definition outage : Error := {| message := "connection lost"; status := None |}.

Definition library_failing (down : StoreOp -> bool) : World :=
  {| genres := genres library; books := books library; next_oid := 9;
     fault := fun op => if down op then Some outage else None |}.

(** A name made of whitespace only (the empty name is one). *)
Fixpoint all_whitespace (s : string) : bool :=
  match s with
  | String c s' => Validator.is_whitespace c && all_whitespace s'
  | EmptyString => true
  end.

(** The characters [escape] replaces: the ampersand and the markup ones. *)
Definition is_escaped (c : ascii) : bool :=
  match c with
  | "&"%char => true
  | _ => Validator.is_markup c
  end.

(** No two Genres of the store have the same name. *)
Definition names_unique (w : World) : Prop :=
  forall i j n, genres w !! i = Some n -> genres w !! j = Some n -> i = j.

(** ** The create handler around its lookup

    The handler of a valid create request, cut where it waits for the store:
    the part that runs until [Genre.findOne] is issued and answers, and the
    callback of that lookup.  Other requests can run between the two. *)

Definition create_post_issue_lookup (req : Request) :
    Eff (Genre * (Error + option Genre)) :=
  genre <- new_Genre (body_name req) None ;;
  r <- Genre_findOne_exec (body_name req) ;;
  ret (genre, r).

Definition create_post_on_lookup (genre : Genre) (r : Error + option Genre) :
    Eff unit :=
  match r with
  | inl err => next err
  | inr (Some found_genre) => redirect (url found_genre)
  | inr None =>
      s <- Genre_save_exec genre ;;
      match s with
      | inl err => next err
      | inr _ => redirect (url genre)
      end
  end.

(** Two create requests whose lookups are both answered before either
    callback runs. *)
Definition create_post_interleaved (reqA reqB : Request) : Eff unit :=
  a <- create_post_issue_lookup reqA ;;
  b <- create_post_issue_lookup reqB ;;
  create_post_on_lookup a.1 a.2 ;;;
  create_post_on_lookup b.1 b.2.

(** The request as the name chain of the create route hands it on. *)
Definition validated (id : Id) (raw : string) (gid : Id) : Request :=
  body "name" name_message [trim; isLength 2; escape] (request id raw gid).

(** * Properties *)

(** ** The store on a world whose calls succeed *)

Section Healthy.
Variable w : World.
Hypothesis Hw : healthy w.

Lemma Genre_find_sorted_ok :
  Genre_find_sorted w =
    (inr (merge_sort name_le (all_genres w)), w,
     [Store Genre_find_sort_name_ascending]).
Proof. unfold Genre_find_sorted, exec. by rewrite Hw. Qed.

Lemma Genre_findById_ok id :
  Genre_findById_exec id w =
    (inr (genre_by_id w id), w,
     [Store (Genre_findById id)]).
Proof. unfold Genre_findById_exec, exec. by rewrite Hw. Qed.

Lemma Book_find_ok id :
  Book_find_exec id w =
    (inr (dependent_books w id), w,
     [Store (Book_find_genre id)]).
Proof. unfold Book_find_exec, exec. by rewrite Hw. Qed.

Lemma Genre_findOne_ok n :
  Genre_findOne_exec n w =
    (inr (head (filter (fun g => name g = n) (all_genres w))), w,
     [Store (Genre_findOne_name n)]).
Proof. unfold Genre_findOne_exec, exec. by rewrite Hw. Qed.

Lemma Genre_save_ok g :
  genres w !! _id g = None ->
  Genre_save_exec g w =
    (inr tt, set_genres w (<[_id g := name g]> (genres w)), [Store (Genre_save g)]).
Proof. intros Hg. unfold Genre_save_exec, exec. by rewrite Hw, Hg. Qed.

Lemma Genre_findByIdAndRemove_ok id :
  Genre_findByIdAndRemove_exec id w =
    (inr (genre_by_id w id),
     set_genres w (delete id (genres w)),
     [Store (Genre_findByIdAndRemove id)]).
Proof. unfold Genre_findByIdAndRemove_exec, exec. by rewrite Hw. Qed.

Lemma Genre_findByIdAndUpdate_ok id g n :
  genres w !! id = Some n ->
  Genre_findByIdAndUpdate_exec id g w =
    (inr (Some {| _id := id; name := n |}),
     set_genres w (<[id := name g]> (genres w)),
     [Store (Genre_findByIdAndUpdate id g)]).
Proof. intros Hn. unfold Genre_findByIdAndUpdate_exec, exec. by rewrite Hw, Hn. Qed.

Lemma parallel_genre_books_ok id :
  async_parallel2 (Genre_findById_exec id) (Book_find_exec id) w =
    (inr (genre_by_id w id,
          dependent_books w id),
     w, [Store (Genre_findById id); Store (Book_find_genre id)]).
Proof.
  unfold async_parallel2, bind.
  by rewrite Genre_findById_ok, Book_find_ok.
Qed.
End Healthy.

Lemma healthy_set_genres w m : healthy w -> healthy (set_genres w m).
Proof. intros Hw op. apply Hw. Qed.

Lemma set_genres_same w : set_genres w (genres w) = w.
Proof. by destruct w. Qed.

(** ** Not found on the detail and update-display routes *)

Lemma genre_detail_missing w req :
  healthy w -> genres w !! params_id req = None ->
  genre_detail req w =
    (tt, w, [Store (Genre_findById (params_id req));
             Store (Book_find_genre (params_id req));
             Next not_found]).
Proof.
  intros Hw Hnone. unfold genre_detail, bind.
  rewrite parallel_genre_books_ok by done.
  unfold genre_by_id. by rewrite Hnone.
Qed.

Lemma genre_update_get_missing w req :
  healthy w -> genres w !! params_id req = None ->
  genre_update_get req w =
    (tt, w, [Store (Genre_findById (params_id req)); Next not_found]).
Proof.
  intros Hw Hnone. unfold genre_update_get, async_parallel1, bind.
  rewrite Genre_findById_ok by done.
  unfold genre_by_id. by rewrite Hnone.
Qed.

Lemma no_fault_healthy g b o :
  healthy {| genres := g; books := b; next_oid := o; fault := no_fault |}.
Proof. by intros op. Qed.

(** C8. A detail request and an update-display request whose id matches no
    Genre do not render: each hands to [next] the error "Genre not found",
    whose status is 404, after its store lookups and nothing else. *)
Theorem missing_genre_signals_not_found (w : World) (req : Request) :
  healthy w ->
  genres w !! params_id req = None ->
  genre_detail req w =
    (tt, w, [Store (Genre_findById (params_id req));
             Store (Book_find_genre (params_id req));
             Next not_found])
  /\ genre_update_get req w =
    (tt, w, [Store (Genre_findById (params_id req)); Next not_found])
  /\ status not_found = Some 404
  /\ message not_found = "Genre not found".
Proof.
  intros Hw Hnone. split; [|split]; [| |done].
  - by apply genre_detail_missing.
  - by apply genre_update_get_missing.
Qed.

Lemma missing_genre_signals_not_found_witness :
  healthy library /\ genres library !! 3 = None /\
  responses (trace (genre_detail (request 3 EmptyString 0) library)) = [Next not_found] /\
  responses (trace (genre_update_get (request 3 EmptyString 0) library)) = [Next not_found].
Proof.
  assert (Hh : healthy library) by apply no_fault_healthy.
  assert (Hn : genres library !! 3 = None) by (vm_compute; reflexivity).
  destruct (missing_genre_signals_not_found library (request 3 EmptyString 0) Hh Hn)
    as (Hd & Hu & _).
  split; [exact Hh|]. split; [exact Hn|].
  rewrite Hd, Hu. split; reflexivity.
Defined.

(** ** Delete on POST *)

Lemma genre_delete_post_blocked w req :
  healthy w -> dependent_books w (body_genreid req) <> [] ->
  genre_delete_post req w =
    (tt, w,
     [Store (Genre_findById (body_genreid req));
      Store (Book_find_genre (body_genreid req));
      Render "genre_delete"
        {| View.title := "Delete Genre";
           View.genre := Some (genre_by_id w (body_genreid req));
           View.genre_books := Some (dependent_books w (body_genreid req));
           View.genre_list := None; View.errors := None |}]).
Proof.
  intros Hw Hdep. unfold genre_delete_post, bind.
  rewrite parallel_genre_books_ok by done.
  destruct (dependent_books w (body_genreid req)) as [|b bs]; [done|].
  reflexivity.
Qed.

Lemma genre_delete_post_free w req :
  healthy w -> dependent_books w (body_genreid req) = [] ->
  genre_delete_post req w =
    (tt, set_genres w (delete (body_genreid req) (genres w)),
     [Store (Genre_findById (body_genreid req));
      Store (Book_find_genre (body_genreid req));
      Store (Genre_findByIdAndRemove (body_genreid req));
      Redirect "/catalog/genres"]).
Proof.
  intros Hw Hdep. unfold genre_delete_post, bind.
  rewrite parallel_genre_books_ok by done. rewrite Hdep. simpl.
  by rewrite Genre_findByIdAndRemove_ok.
Qed.

(** The route id plays no part in the delete on POST. *)
Lemma genre_delete_post_reads_body req1 req2 w :
  body_genreid req1 = body_genreid req2 ->
  genre_delete_post req1 w = genre_delete_post req2 w.
Proof. intros Heq. unfold genre_delete_post. by rewrite Heq. Qed.

(** C2. A delete-submit request whose id has a dependent Book leaves the
    world as it is, so the Genre stays in the store, and answers with one
    render of the delete-confirmation view holding the Genre looked up and
    the dependent Books; nothing is handed to [next]. *)
Theorem delete_post_with_books_is_refused (w : World) (req : Request) (b : Book) :
  healthy w ->
  b ∈ books w ->
  book_genre b = body_genreid req ->
  genre_delete_post req w =
    (tt, w,
     [Store (Genre_findById (body_genreid req));
      Store (Book_find_genre (body_genreid req));
      Render "genre_delete"
        {| View.title := "Delete Genre";
           View.genre := Some (genre_by_id w (body_genreid req));
           View.genre_books := Some (dependent_books w (body_genreid req));
           View.genre_list := None; View.errors := None |}])
  /\ b ∈ dependent_books w (body_genreid req).
Proof.
  intros Hw Hb Hg.
  assert (Hin : b ∈ dependent_books w (body_genreid req)).
  { unfold dependent_books. by apply list_elem_of_filter. }
  split; [|done].
  apply genre_delete_post_blocked; [done|].
  intros Hnil. rewrite Hnil in Hin. by apply not_elem_of_nil in Hin.
Qed.

Lemma delete_post_with_books_is_refused_witness :
  let req := request 0 EmptyString 1 in
  let dune := {| book_id := 7; book_title := "Dune"; book_genre := 1 |} in
  healthy library /\ dune ∈ books library /\ book_genre dune = body_genreid req /\
  world_after (genre_delete_post req library) = library /\
  responses (trace (genre_delete_post req library)) =
    [Render "genre_delete"
       {| View.title := "Delete Genre";
          View.genre := Some (Some {| _id := 1; name := "Fiction" |});
          View.genre_books := Some [dune];
          View.genre_list := None; View.errors := None |}].
Proof.
  intros req dune.
  assert (Hh : healthy library) by apply no_fault_healthy.
  assert (Hb : dune ∈ books library) by apply list_elem_of_here.
  assert (Hg : book_genre dune = body_genreid req) by reflexivity.
  destruct (delete_post_with_books_is_refused library req dune Hh Hb Hg) as [Hrun _].
  split; [exact Hh|]. split; [exact Hb|]. split; [exact Hg|].
  rewrite Hrun. split; vm_compute; reflexivity.
Defined.

(** C10. A delete-submit request whose id matches no Genre and has no
    dependent Book signals nothing to [next]: the delete by id is issued,
    the world is left as it was, and the answer is the redirect to the
    Genre list. *)
Theorem delete_post_of_missing_genre_redirects (w : World) (req : Request) :
  healthy w ->
  genres w !! body_genreid req = None ->
  dependent_books w (body_genreid req) = [] ->
  genre_delete_post req w =
    (tt, w,
     [Store (Genre_findById (body_genreid req));
      Store (Book_find_genre (body_genreid req));
      Store (Genre_findByIdAndRemove (body_genreid req));
      Redirect "/catalog/genres"]).
Proof.
  intros Hw Hnone Hdep.
  rewrite genre_delete_post_free by done.
  by rewrite delete_id, set_genres_same.
Qed.

Lemma delete_post_of_missing_genre_redirects_witness :
  let req := request 0 EmptyString 3 in
  healthy library /\ genres library !! body_genreid req = None /\
  dependent_books library (body_genreid req) = [] /\
  world_after (genre_delete_post req library) = library /\
  responses (trace (genre_delete_post req library)) = [Redirect "/catalog/genres"].
Proof.
  intros req.
  assert (Hh : healthy library) by apply no_fault_healthy.
  assert (Hn : genres library !! body_genreid req = None) by (vm_compute; reflexivity).
  assert (Hd : dependent_books library (body_genreid req) = []) by reflexivity.
  pose proof (delete_post_of_missing_genre_redirects library req Hh Hn Hd) as Hrun.
  split; [exact Hh|]. split; [exact Hn|]. split; [exact Hd|].
  rewrite Hrun. split; reflexivity.
Defined.

(** C7. A delete-submit request whose id has no dependent Book deletes the
    Genre of that id and no other and answers with the redirect to the Genre
    list; a detail request for that id then signals not found.  The id is
    the [genreid] field of the body: the route id changes nothing. *)
Theorem delete_post_without_books_removes_genre (w : World) (req : Request) :
  healthy w ->
  dependent_books w (body_genreid req) = [] ->
  let gid := body_genreid req in
  let w' := world_after (genre_delete_post req w) in
  trace (genre_delete_post req w) =
    [Store (Genre_findById gid); Store (Book_find_genre gid);
     Store (Genre_findByIdAndRemove gid); Redirect "/catalog/genres"]
  /\ genres w' = delete gid (genres w)
  /\ genres w' !! gid = None
  /\ (forall i, i <> gid -> genres w' !! i = genres w !! i)
  /\ books w' = books w
  /\ (forall req', params_id req' = gid ->
        genre_detail req' w' =
          (tt, w', [Store (Genre_findById gid); Store (Book_find_genre gid);
                    Next not_found]))
  /\ (forall id n,
        genre_delete_post (request id n gid) w =
        genre_delete_post (request (params_id req) n gid) w).
Proof.
  intros Hw Hdep gid w'. subst w'.
  rewrite genre_delete_post_free by done.
  unfold trace, world_after; simpl. fold gid.
  repeat split.
  - apply lookup_delete_eq.
  - intros i Hi. by apply lookup_delete_ne.
  - intros req' <-. apply genre_detail_missing.
    + by apply healthy_set_genres.
    + apply lookup_delete_eq.
Qed.

Lemma delete_post_without_books_removes_genre_witness :
  let req := request 0 EmptyString 5 in
  healthy library /\ dependent_books library (body_genreid req) = [] /\
  genres library !! 5 = Some "Crime" /\
  genres (world_after (genre_delete_post req library)) !! 5 = None /\
  responses (trace (genre_detail (request 5 EmptyString 0)
                      (world_after (genre_delete_post req library)))) =
    [Next not_found].
Proof.
  intros req.
  assert (Hh : healthy library) by apply no_fault_healthy.
  assert (Hd : dependent_books library (body_genreid req) = []) by reflexivity.
  destruct (delete_post_without_books_removes_genre library req Hh Hd)
    as (_ & _ & Hgone & _ & _ & Hdetail & _).
  split; [exact Hh|]. split; [exact Hd|].
  split; [vm_compute; reflexivity|]. split; [exact Hgone|].
  by rewrite (Hdetail (request 5 EmptyString 0) eq_refl).
Defined.

(** ** The Genre documents of a store and their order by name *)

#[global] Instance doc_inj : Inj (=) (=) doc.
Proof. intros [i n] [j m] Heq. by injection Heq as -> ->. Qed.

Lemma elem_of_all_genres w g :
  g ∈ all_genres w <-> genres w !! _id g = Some (name g).
Proof.
  unfold all_genres. rewrite list_elem_of_fmap. split.
  - intros ([i n] & -> & Hin). by apply elem_of_map_to_list in Hin.
  - intros Hg. exists (_id g, name g). split; [by destruct g|].
    by apply elem_of_map_to_list.
Qed.

Lemma NoDup_all_genres w : NoDup (all_genres w).
Proof. apply NoDup_fmap_2; [apply _|]. apply NoDup_map_to_list. Qed.

Lemma length_all_genres w : length (all_genres w) = size (genres w).
Proof. unfold all_genres. by rewrite length_fmap, length_map_to_list. Qed.

#[global] Instance name_le_trans : Transitive name_le.
Proof. intros g1 g2 g3. unfold name_le. apply transitivity. Qed.

#[global] Instance name_le_total : Total name_le.
Proof. intros g1 g2. unfold name_le. apply total, _. Qed.

Lemma genre_list_ok w req :
  healthy w ->
  genre_list req w =
    (tt, w,
     [Store Genre_find_sort_name_ascending;
      Render "genre_list"
        {| View.title := "Genre List"; View.genre := None;
           View.genre_books := None;
           View.genre_list := Some (merge_sort name_le (all_genres w));
           View.errors := None |}]).
Proof.
  intros Hw. unfold genre_list, bind. by rewrite Genre_find_sorted_ok.
Qed.

Lemma sorted_names_unique (l1 l2 : list Genre) :
  StronglySorted name_le l1 -> StronglySorted name_le l2 ->
  name <$> l1 ≡ₚ name <$> l2 -> name <$> l1 = name <$> l2.
Proof.
  intros H1 H2 Hperm.
  apply (StronglySorted_unique String.le); [| |done].
  - by apply (StronglySorted_fmap name name_le String.le).
  - by apply (StronglySorted_fmap name name_le String.le).
Qed.

(** C9. In every store state the list handler renders the view genre_list
    with a sequence that holds each Genre of the store exactly once and in
    which the name of a Genre is at most (in the order of strings) the name
    of every Genre after it.  The order the Genres were created in plays no
    part: a store with the same names, whatever ids they got and whatever
    order it scans them in, is listed with the same sequence of names. *)
Theorem genre_list_renders_all_genres_sorted (w : World) (req : Request) :
  healthy w ->
  exists l : list Genre,
    genre_list req w =
      (tt, w,
       [Store Genre_find_sort_name_ascending;
        Render "genre_list"
          {| View.title := "Genre List"; View.genre := None;
             View.genre_books := None; View.genre_list := Some l;
             View.errors := None |}])
    /\ StronglySorted name_le l
    /\ l ≡ₚ all_genres w
    /\ (forall g, g ∈ l <-> genres w !! _id g = Some (name g))
    /\ NoDup l
    /\ length l = size (genres w)
    /\ (forall w2, healthy w2 ->
          name <$> all_genres w2 ≡ₚ name <$> all_genres w ->
          exists l2,
            genre_list req w2 =
              (tt, w2,
               [Store Genre_find_sort_name_ascending;
                Render "genre_list"
                  {| View.title := "Genre List"; View.genre := None;
                     View.genre_books := None; View.genre_list := Some l2;
                     View.errors := None |}])
            /\ name <$> l2 = name <$> l).
Proof.
  intros Hw. exists (merge_sort name_le (all_genres w)).
  pose proof (merge_sort_Permutation name_le (all_genres w)) as Hperm.
  split; [by apply genre_list_ok|].
  split; [apply StronglySorted_merge_sort; apply _|].
  split; [done|].
  split; [|split; [|split]].
  - intros g. rewrite Hperm. apply elem_of_all_genres.
  - rewrite Hperm. apply NoDup_all_genres.
  - rewrite Hperm. apply length_all_genres.
  - intros w2 Hw2 Hnames. exists (merge_sort name_le (all_genres w2)).
    split; [by apply genre_list_ok|].
    apply sorted_names_unique; try (apply StronglySorted_merge_sort; apply _).
    by rewrite Hperm, merge_sort_Permutation.
Qed.

Example genre_list_of_library :
  responses (trace (genre_list (request 0 EmptyString 0) library)) =
    [Render "genre_list"
       {| View.title := "Genre List"; View.genre := None;
          View.genre_books := None;
          View.genre_list :=
            Some [ {| _id := 5; name := "Crime" |};
                   {| _id := 1; name := "Fiction" |};
                   {| _id := 2; name := "Western" |} ];
          View.errors := None |}].
Proof. vm_compute. reflexivity. Qed.

Lemma genre_list_renders_all_genres_sorted_witness :
  healthy library /\
  (exists l : list Genre,
    genre_list (request 0 EmptyString 0) library =
      (tt, library,
       [Store Genre_find_sort_name_ascending;
        Render "genre_list"
          {| View.title := "Genre List"; View.genre := None;
             View.genre_books := None; View.genre_list := Some l;
             View.errors := None |}])
    /\ StronglySorted name_le l
    /\ l ≡ₚ all_genres library).
Proof.
  assert (Hh : healthy library) by apply no_fault_healthy.
  split; [exact Hh|].
  destruct (genre_list_renders_all_genres_sorted library (request 0 EmptyString 0) Hh)
    as (l & Hrun & Hsorted & Hperm & _).
  exists l. split; [exact Hrun|]. split; [exact Hsorted|exact Hperm].
Defined.

(** ** The validation chain of the name field *)

Lemma name_chain_run id raw gid :
  body "name" name_message [trim; isLength 2; escape] (request id raw gid) =
    {| params_id := id; body_name := sanitized raw; body_genreid := gid;
       validation_errors :=
         if Validator.isLength 2 (Validator.trim raw) then []
         else [length_error (Validator.trim raw)] |}.
Proof. reflexivity. Qed.

Lemma isLength_true n s : Validator.isLength n s = true <-> n <= String.length s.
Proof. unfold Validator.isLength. apply bool_decide_eq_true. Qed.

Lemma isLength_false n s : Validator.isLength n s = false <-> String.length s < n.
Proof. unfold Validator.isLength. rewrite bool_decide_eq_false. lia. Qed.

(** ** Create on POST *)

Lemma genre_create_post_rejected w id raw gid :
  String.length (Validator.trim raw) < 2 ->
  dispatch genre_create_post (request id raw gid) w =
    (tt, draw_oid w,
     [Render "genre_form"
        {| View.title := "Create Genre";
           View.genre := Some (Some {| _id := next_oid w; name := sanitized raw |});
           View.genre_books := None; View.genre_list := None;
           View.errors := Some [length_error (Validator.trim raw)] |}]).
Proof.
  intros Hshort. apply isLength_false in Hshort.
  unfold genre_create_post. cbn [dispatch]. rewrite name_chain_run.
  unfold genre_create_post_handler, validationResult, bind. simpl.
  by rewrite Hshort.
Qed.

Lemma genre_create_post_accepted w id raw gid :
  2 <= String.length (Validator.trim raw) ->
  dispatch genre_create_post (request id raw gid) w =
    genre_create_post_handler
      {| params_id := id; body_name := sanitized raw; body_genreid := gid;
         validation_errors := [] |} w.
Proof.
  intros Hlong. apply isLength_true in Hlong.
  unfold genre_create_post. cbn [dispatch]. rewrite name_chain_run.
  by rewrite Hlong.
Qed.

Lemma healthy_draw_oid w : healthy w -> healthy (draw_oid w).
Proof. intros Hw op. apply Hw. Qed.

Lemma create_handler_found w req found :
  healthy w -> validation_errors req = [] ->
  head (filter (fun g => name g = body_name req) (all_genres w)) = Some found ->
  genre_create_post_handler req w =
    (tt, draw_oid w,
     [Store (Genre_findOne_name (body_name req)); Redirect (url found)]).
Proof.
  intros Hw Hvalid Hfound.
  unfold genre_create_post_handler, validationResult, bind. rewrite Hvalid. simpl.
  rewrite Genre_findOne_ok by by apply healthy_draw_oid.
  change (all_genres (draw_oid w)) with (all_genres w). by rewrite Hfound.
Qed.

Lemma create_handler_new w req :
  healthy w -> validation_errors req = [] ->
  filter (fun g => name g = body_name req) (all_genres w) = [] ->
  genres w !! next_oid w = None ->
  genre_create_post_handler req w =
    (tt, set_genres (draw_oid w) (<[next_oid w := body_name req]> (genres w)),
     [Store (Genre_findOne_name (body_name req));
      Store (Genre_save {| _id := next_oid w; name := body_name req |});
      Redirect (url {| _id := next_oid w; name := body_name req |})]).
Proof.
  intros Hw Hvalid Hnone Hfresh.
  unfold genre_create_post_handler, validationResult, bind. rewrite Hvalid. simpl.
  rewrite Genre_findOne_ok by by apply healthy_draw_oid.
  change (all_genres (draw_oid w)) with (all_genres w). rewrite Hnone. simpl.
  by rewrite Genre_save_ok by (by apply healthy_draw_oid || done).
Qed.

(** C6. A create-submit request whose name is shorter than 2 after trimming
    is answered by one render of the create form with the candidate Genre
    and the one error message of the chain, the message about the minimum
    length; no store call is issued, nothing is handed to [next], and the
    collections are as before.  A name of length 2 or more after trimming
    leaves no validation error, and the handler goes on to the store. *)
Theorem create_post_checks_minimum_length (w : World) (id gid : Id) (raw : string) :
  (String.length (Validator.trim raw) < 2 ->
     dispatch genre_create_post (request id raw gid) w =
       (tt, draw_oid w,
        [Render "genre_form"
           {| View.title := "Create Genre";
              View.genre := Some (Some {| _id := next_oid w; name := sanitized raw |});
              View.genre_books := None; View.genre_list := None;
              View.errors :=
                Some [ {| value := Validator.trim raw;
                          msg := "Genre name must contain at least 2 characters";
                          param := "name"; location := "body" |} ] |}])
     /\ genres (draw_oid w) = genres w /\ books (draw_oid w) = books w)
  /\ (2 <= String.length (Validator.trim raw) ->
     validationResult
       (body "name" name_message [trim; isLength 2; escape] (request id raw gid)) = []
     /\ exists rest,
         trace (dispatch genre_create_post (request id raw gid) w) =
           Store (Genre_findOne_name (sanitized raw)) :: rest).
Proof.
  split.
  - intros Hshort. split; [|done]. by apply genre_create_post_rejected.
  - intros Hlong. split.
    + rewrite name_chain_run. unfold validationResult. simpl.
      apply isLength_true in Hlong. by rewrite Hlong.
    + rewrite genre_create_post_accepted by done.
      unfold genre_create_post_handler, validationResult, bind,
        Genre_findOne_exec, exec, trace. simpl.
      destruct (fault w (Genre_findOne_name (sanitized raw))); simpl; [by eexists|].
      destruct (head _) as [found|]; simpl; [by eexists|].
      unfold Genre_save_exec, exec. simpl.
      destruct (fault w _); simpl; [by eexists|].
      destruct (genres w !! next_oid w); simpl; by eexists.
Qed.

Lemma create_post_checks_minimum_length_witness :
  (String.length (Validator.trim " A ") < 2 /\
   responses (trace (dispatch genre_create_post (request 0 " A " 0) library)) =
     [Render "genre_form"
        {| View.title := "Create Genre";
           View.genre := Some (Some {| _id := 9; name := "A" |});
           View.genre_books := None; View.genre_list := None;
           View.errors := Some [length_error "A"] |}] /\
   store_calls (trace (dispatch genre_create_post (request 0 " A " 0) library)) = [])
  /\ (2 <= String.length (Validator.trim "Ab") /\
      validationResult
        (body "name" name_message [trim; isLength 2; escape] (request 0 "Ab" 0)) = []).
Proof.
  destruct (create_post_checks_minimum_length library 0 0 " A ") as [Hshort _].
  destruct (create_post_checks_minimum_length library 0 0 "Ab") as [_ Hlong].
  assert (H1 : String.length (Validator.trim " A ") < 2) by (vm_compute; lia).
  assert (H2 : 2 <= String.length (Validator.trim "Ab")) by (vm_compute; lia).
  destruct (Hshort H1) as [Hrun _]. destruct (Hlong H2) as [Hvalid _].
  split; [split; [exact H1|]|split; [exact H2|exact Hvalid]].
  rewrite Hrun. split; reflexivity.
Defined.

Lemma all_genres_insert w w' i n :
  genres w !! i = None -> genres w' = <[i := n]> (genres w) ->
  all_genres w' ≡ₚ {| _id := i; name := n |} :: all_genres w.
Proof.
  intros Hfresh Hw'. unfold all_genres. rewrite Hw'.
  by rewrite map_to_list_insert.
Qed.

Lemma named_absent w n :
  (forall i, genres w !! i <> Some n) ->
  filter (fun g => name g = n) (all_genres w) = [].
Proof.
  intros Habsent.
  destruct (filter (fun g => name g = n) (all_genres w)) as [|g rest] eqn:Hf; [done|].
  assert (Hg : g ∈ filter (fun g => name g = n) (all_genres w)).
  { rewrite Hf. apply list_elem_of_here. }
  apply list_elem_of_filter in Hg as [Hname Hstore].
  apply elem_of_all_genres in Hstore.
  destruct (Habsent (_id g)). by rewrite Hstore, Hname.
Qed.

Lemma named_present w n i :
  genres w !! i = Some n ->
  exists j, genres w !! j = Some n
    /\ head (filter (fun g => name g = n) (all_genres w)) = Some {| _id := j; name := n |}.
Proof.
  intros Hi.
  assert (Hin : {| _id := i; name := n |} ∈
                filter (fun g => name g = n) (all_genres w)).
  { apply list_elem_of_filter. split; [done|]. by apply elem_of_all_genres. }
  destruct (filter (fun g => name g = n) (all_genres w)) as [|found rest] eqn:Hf.
  { by apply not_elem_of_nil in Hin. }
  assert (Hfound : found ∈ filter (fun g => name g = n) (all_genres w)).
  { rewrite Hf. apply list_elem_of_here. }
  apply list_elem_of_filter in Hfound as [Hname Hstore].
  apply elem_of_all_genres in Hstore.
  exists (_id found). destruct found as [j m]. simpl in *. by subst m.
Qed.

Lemma create_post_found w id raw gid found :
  healthy w -> 2 <= String.length (Validator.trim raw) ->
  head (filter (fun g => name g = sanitized raw) (all_genres w)) = Some found ->
  dispatch genre_create_post (request id raw gid) w =
    (tt, draw_oid w,
     [Store (Genre_findOne_name (sanitized raw)); Redirect (url found)]).
Proof.
  intros Hw Hlong Hfound. rewrite genre_create_post_accepted by done.
  by rewrite (create_handler_found w _ found).
Qed.

Lemma create_post_new w id raw gid :
  healthy w -> 2 <= String.length (Validator.trim raw) ->
  (forall i, genres w !! i <> Some (sanitized raw)) ->
  genres w !! next_oid w = None ->
  dispatch genre_create_post (request id raw gid) w =
    (tt, set_genres (draw_oid w) (<[next_oid w := sanitized raw]> (genres w)),
     [Store (Genre_findOne_name (sanitized raw));
      Store (Genre_save {| _id := next_oid w; name := sanitized raw |});
      Redirect (url {| _id := next_oid w; name := sanitized raw |})]).
Proof.
  intros Hw Hlong Habsent Hfresh. rewrite genre_create_post_accepted by done.
  rewrite create_handler_new; [done|done|done| |done].
  by apply named_absent.
Qed.

Lemma create_post_twice w id raw gid req :
  healthy w -> 2 <= String.length (Validator.trim raw) ->
  (forall i, genres w !! i <> Some (sanitized raw)) ->
  genres w !! next_oid w = None ->
  let created := {| _id := next_oid w; name := sanitized raw |} in
  let r1 := dispatch genre_create_post (request id raw gid) w in
  let r2 := dispatch genre_create_post (request id raw gid) (world_after r1) in
  trace r1 = [Store (Genre_findOne_name (sanitized raw));
              Store (Genre_save created); Redirect (url created)]
  /\ trace r2 = [Store (Genre_findOne_name (sanitized raw)); Redirect (url created)]
  /\ genres (world_after r1) = <[next_oid w := sanitized raw]> (genres w)
  /\ genres (world_after r2) = genres (world_after r1)
  /\ exists l,
       trace (genre_list req (world_after r2)) =
         [Store Genre_find_sort_name_ascending;
          Render "genre_list"
            {| View.title := "Genre List"; View.genre := None;
               View.genre_books := None; View.genre_list := Some l;
               View.errors := None |}]
       /\ filter (fun g => name g = sanitized raw) l = [created].
Proof.
  intros Hw Hlong Habsent Hfresh created r1 r2. subst r1 r2.
  rewrite (create_post_new w) by done. fold created.
  set (w1 := set_genres (draw_oid w) (<[next_oid w:=sanitized raw]> (genres w))).
  change (world_after (tt, w1, _)) with w1.
  assert (Hw1 : healthy w1) by by apply healthy_set_genres, healthy_draw_oid.
  assert (Hnamed : forall l, l ≡ₚ all_genres w1 ->
            filter (fun g => name g = sanitized raw) l = [created]).
  { intros l Hl. apply Permutation_singleton_r. rewrite Hl.
    rewrite (all_genres_insert w w1 (next_oid w) (sanitized raw)) by done.
    rewrite filter_cons_True by done. by rewrite named_absent. }
  rewrite (create_post_found w1 _ _ _ created); [|done|done|].
  2:{ by rewrite Hnamed. }
  change (world_after (tt, draw_oid w1, _)) with (draw_oid w1).
  split; [done|]. split; [done|]. split; [done|]. split; [done|].
  exists (merge_sort name_le (all_genres w1)). split.
  - by rewrite genre_list_ok by by apply healthy_draw_oid.
  - apply Hnamed, merge_sort_Permutation.
Qed.

(** The length check comes before the lookup by name: on a store that holds
    a Genre named "A", a name no create request stores, a create of "A" gets
    the form back with the error about the length and no lookup is made. *)
Lemma create_post_of_existing_short_name_is_rejected :
  healthy short_name_world /\
  genres short_name_world !! 0 = Some (sanitized "A") /\
  trace (dispatch genre_create_post (request 0 "A" 0) short_name_world) =
    [Render "genre_form"
       {| View.title := "Create Genre";
          View.genre := Some (Some {| _id := 1; name := "A" |});
          View.genre_books := None; View.genre_list := None;
          View.errors := Some [length_error "A"] |}] /\
  ~ (exists loc,
       responses (trace (dispatch genre_create_post (request 0 "A" 0) short_name_world))
       = [Redirect loc]).
Proof.
  split; [apply no_fault_healthy|].
  split; [vm_compute; reflexivity|].
  split; [vm_compute; reflexivity|].
  intros [loc Hloc]. vm_compute in Hloc. discriminate Hloc.
Qed.

(** The store of the lemma above is one the handlers themselves build: a
    create of "Ab" on the empty store and an update of its name to "A". *)
Example short_name_world_is_reachable :
  let w1 := world_after (dispatch genre_create_post (request 0 "Ab" 0) empty_world) in
  let w2 := world_after (dispatch genre_update_post (request 0 "A" 0) w1) in
  genres w2 = genres short_name_world /\ books w2 = books short_name_world
  /\ next_oid w2 = next_oid short_name_world.
Proof. vm_compute. repeat split; reflexivity. Qed.

(** ** Update on POST *)

(** The route holds the function alone: no validation chain runs before it. *)
Lemma genre_update_post_stack :
  genre_update_post = [Handler genre_update_post_handler].
Proof. reflexivity. Qed.

Lemma update_post_run w id n gid old :
  healthy w -> genres w !! id = Some old ->
  dispatch genre_update_post (request id n gid) w =
    (tt, set_genres w (<[id := n]> (genres w)),
     [Store (Genre_findByIdAndUpdate id {| _id := id; name := n |});
      Redirect ("/catalog/genre/" +:+ pretty id)]).
Proof.
  intros Hw Hold. rewrite genre_update_post_stack. cbn [dispatch].
  unfold genre_update_post_handler, validationResult, bind. simpl.
  by rewrite (Genre_findByIdAndUpdate_ok w Hw id _ old).
Qed.

Lemma genre_detail_found w req n :
  healthy w -> genres w !! params_id req = Some n ->
  genre_detail req w =
    (tt, w,
     [Store (Genre_findById (params_id req));
      Store (Book_find_genre (params_id req));
      Render "genre_detail"
        {| View.title := "Genre Detail";
           View.genre := Some (Some {| _id := params_id req; name := n |});
           View.genre_books := Some (dependent_books w (params_id req));
           View.genre_list := None; View.errors := None |}]).
Proof.
  intros Hw Hn. unfold genre_detail, bind.
  rewrite parallel_genre_books_ok by done.
  unfold genre_by_id. by rewrite Hn.
Qed.

(** C4. An update-submit request for an existing Genre writes a candidate
    whose [_id] is the id of the route: no ObjectId is drawn, the ids of the
    store are the same before and after, every other Genre is untouched, and
    a detail request for the route id then shows the Genre of that id with
    the new name. *)
Theorem update_post_keeps_the_route_id
    (w : World) (id gid : Id) (n old : string) :
  healthy w ->
  genres w !! id = Some old ->
  let r := dispatch genre_update_post (request id n gid) w in
  let w' := world_after r in
  trace r =
    [Store (Genre_findByIdAndUpdate id {| _id := id; name := n |});
     Redirect ("/catalog/genre/" +:+ pretty id)]
  /\ next_oid w' = next_oid w
  /\ genres w' !! id = Some n
  /\ (forall j, j <> id -> genres w' !! j = genres w !! j)
  /\ dom (genres w') = dom (genres w)
  /\ (forall req', params_id req' = id ->
        genre_detail req' w' =
          (tt, w',
           [Store (Genre_findById id); Store (Book_find_genre id);
            Render "genre_detail"
              {| View.title := "Genre Detail";
                 View.genre := Some (Some {| _id := id; name := n |});
                 View.genre_books := Some (dependent_books w id);
                 View.genre_list := None; View.errors := None |}])).
Proof.
  intros Hw Hold r w'. subst w' r.
  rewrite (update_post_run w id n gid old Hw Hold).
  unfold trace, world_after. simpl.
  split; [done|]. split; [done|].
  split; [apply lookup_insert_eq|].
  split; [intros j Hj; by apply lookup_insert_ne|].
  split; [apply dom_insert_lookup_L; by eexists|].
  intros req' <-.
  rewrite (genre_detail_found _ req' n).
  - done.
  - by apply healthy_set_genres.
  - apply lookup_insert_eq.
Qed.

Lemma update_post_keeps_the_route_id_witness :
  healthy library /\ genres library !! 1 = Some "Fiction" /\
  let w' := world_after (dispatch genre_update_post (request 1 "Novel" 0) library) in
  next_oid w' = 9 /\ genres w' !! 1 = Some "Novel" /\
  dom (genres w') = dom (genres library).
Proof.
  assert (Hh : healthy library) by apply no_fault_healthy.
  assert (Hi : genres library !! 1 = Some "Fiction") by (vm_compute; reflexivity).
  destruct (update_post_keeps_the_route_id library 1 0 "Novel" "Fiction" Hh Hi)
    as (_ & Hoid & Hname & _ & Hdom & _).
  split; [exact Hh|]. split; [exact Hi|].
  split; [exact Hoid|]. split; [exact Hname|exact Hdom].
Defined.

(** C1 fails on the code.  The update route runs no validation chain: where
    the create route stores the trimmed and escaped name and rejects a name
    of one character, the update route writes the raw markup and the short
    name to the store as they came. *)
Theorem update_post_stores_the_raw_name :
  length genre_update_post = 1 /\ length genre_create_post = 2 /\
  sanitized "<script>" = "&lt;script&gt;" /\
  (let r := dispatch genre_update_post (request 1 "<script>" 0) library in
   trace r =
     [Store (Genre_findByIdAndUpdate 1 {| _id := 1; name := "<script>" |});
      Redirect "/catalog/genre/1"]
   /\ genres (world_after r) !! 1 = Some "<script>") /\
  (let r := dispatch genre_update_post (request 1 " A " 0) library in
   trace r =
     [Store (Genre_findByIdAndUpdate 1 {| _id := 1; name := " A " |});
      Redirect "/catalog/genre/1"]
   /\ genres (world_after r) !! 1 = Some " A ").
Proof. vm_compute. repeat split; reflexivity. Qed.

(** On every world whose store answers, for every name, the update route
    stores the name of the request unchanged. *)
Lemma update_post_never_sanitizes w id gid n old :
  healthy w -> genres w !! id = Some old ->
  genres (world_after (dispatch genre_update_post (request id n gid) w)) !! id
  = Some n.
Proof.
  intros Hw Hold. rewrite (update_post_run w id n gid old Hw Hold).
  apply lookup_insert_eq.
Qed.

(** ** Delete on GET *)

Lemma genre_delete_get_missing w req :
  healthy w -> genres w !! params_id req = None ->
  genre_delete_get req w =
    (tt, w,
     [Store (Genre_findById (params_id req));
      Store (Book_find_genre (params_id req));
      Redirect "/catalog/genres";
      Render "genre_delete"
        {| View.title := "Delete Genre"; View.genre := Some None;
           View.genre_books := Some (dependent_books w (params_id req));
           View.genre_list := None; View.errors := None |}]).
Proof.
  intros Hw Hnone. unfold genre_delete_get, bind.
  rewrite parallel_genre_books_ok by done.
  unfold genre_by_id. by rewrite Hnone.
Qed.

(** C5 fails on the code.  For an id that matches no Genre the delete-display
    handler calls the redirect to the Genre list and, with no [return] after
    it, goes on to render the delete view with a null Genre: two responses,
    one of them a render. *)
Theorem delete_get_of_missing_genre_also_renders :
  genres library !! 3 = None /\
  trace (genre_delete_get (request 3 EmptyString 0) library) =
    [Store (Genre_findById 3); Store (Book_find_genre 3);
     Redirect "/catalog/genres";
     Render "genre_delete"
       {| View.title := "Delete Genre"; View.genre := Some None;
          View.genre_books := Some [];
          View.genre_list := None; View.errors := None |}]
  /\ length (responses (trace (genre_delete_get (request 3 EmptyString 0) library))) = 2.
Proof. vm_compute. repeat split; reflexivity. Qed.

(** ** What the sanitizers guarantee *)

Lemma has_markup_app s1 s2 :
  Validator.has_markup (s1 +:+ s2) =
  Validator.has_markup s1 || Validator.has_markup s2.
Proof.
  induction s1 as [|c s1 IH]; [done|].
  change (String c s1 +:+ s2) with (String c (s1 +:+ s2)).
  simpl. by rewrite IH, orb_assoc.
Qed.

Lemma escape_char_no_markup c :
  Validator.has_markup (Validator.escape_char c) = false.
Proof. destruct c as [[] [] [] [] [] [] [] []]; reflexivity. Qed.

(** A sanitized name holds none of the quotes, angle brackets, slashes and
    backquotes of the input. *)
Lemma sanitized_has_no_markup raw : Validator.has_markup (sanitized raw) = false.
Proof.
  unfold sanitized. induction (Validator.trim raw) as [|c s IH]; [done|].
  simpl. by rewrite has_markup_app, escape_char_no_markup, IH.
Qed.

(** The name a create request stores is sanitized, so free of markup. *)
Lemma create_post_stores_sanitized_name w id raw gid :
  healthy w -> 2 <= String.length (Validator.trim raw) ->
  (forall i, genres w !! i <> Some (sanitized raw)) ->
  genres w !! next_oid w = None ->
  exists n,
    genres (world_after (dispatch genre_create_post (request id raw gid) w))
      !! next_oid w = Some n
    /\ n = sanitized raw /\ Validator.has_markup n = false.
Proof.
  intros Hw Hlong Habsent Hfresh. exists (sanitized raw).
  rewrite create_post_new by done.
  split; [apply lookup_insert_eq|]. split; [done|apply sanitized_has_no_markup].
Qed.

(** ** Store failures go to [next] *)

Lemma genre_list_store_error w req e :
  fault w Genre_find_sort_name_ascending = Some e ->
  genre_list req w = (tt, w, [Store Genre_find_sort_name_ascending; Next e]).
Proof.
  intros He. unfold genre_list, bind, Genre_find_sorted, exec. by rewrite He.
Qed.

Lemma genre_delete_post_remove_error w req e :
  fault w (Genre_findById (body_genreid req)) = None ->
  fault w (Book_find_genre (body_genreid req)) = None ->
  fault w (Genre_findByIdAndRemove (body_genreid req)) = Some e ->
  dependent_books w (body_genreid req) = [] ->
  genre_delete_post req w =
    (tt, w,
     [Store (Genre_findById (body_genreid req));
      Store (Book_find_genre (body_genreid req));
      Store (Genre_findByIdAndRemove (body_genreid req));
      Next e]).
Proof.
  intros Hg Hb He Hdep.
  unfold genre_delete_post, async_parallel2, bind, Genre_findById_exec,
    Book_find_exec, Genre_findByIdAndRemove_exec, exec.
  rewrite Hg, Hb. simpl. rewrite Hdep. simpl. by rewrite He.
Qed.

(** * Further properties of the handlers *)

(** Case analysis on what a handler looks at: the failure of a store call,
    a lookup in the collection, the Books found, the Genre found by name. *)
Ltac handler_case :=
  match goal with
  | |- context [fault ?w ?op] => destruct (fault w op) eqn:?
  | |- context [genres ?w !! ?i] => destruct (genres w !! i) eqn:?
  | |- context [dependent_books ?w ?i] => destruct (dependent_books w i) eqn:?
  | |- context [head ?l] => destruct (head l) eqn:?
  | |- context [Validator.isLength ?n ?s] => destruct (Validator.isLength n s) eqn:?
  end; simpl.

Ltac unfold_handlers :=
  unfold genre_list, genre_detail, genre_create_get, genre_delete_get,
    genre_delete_post, genre_update_get, genre_create_post_handler,
    genre_update_post_handler, async_parallel2, async_parallel1,
    Genre_find_sorted, Genre_findById_exec, Book_find_exec, Genre_findOne_exec,
    Genre_save_exec, Genre_findByIdAndRemove_exec, Genre_findByIdAndUpdate_exec,
    exec, new_Genre, validationResult, genre_by_id,
    render, redirect, next, throw, emit, bind, ret, trace, world_after,
    responses, store_calls; simpl.

(** ** The display handlers only read *)

Lemma display_handlers_cases (w : World) (req : Request) :
  Forall (fun h : Request -> Eff unit =>
            world_after (h req w) = w
            /\ Forall (fun op => is_write op = false) (store_calls (trace (h req w))))
    [genre_list; genre_detail; genre_create_get; genre_delete_get; genre_update_get].
Proof.
  repeat apply Forall_cons_2; [| | | | |apply Forall_nil_2];
    unfold_handlers; repeat handler_case; split; try done;
    repeat constructor.
Qed.

(** X1. The five GET handlers leave the world exactly as it was, whatever
    the store holds and whichever of its calls fail, and none of the store
    calls they issue is a write. *)
Theorem display_handlers_only_read (w : World) (req : Request) :
  Forall (fun h : Request -> Eff unit =>
            world_after (h req w) = w
            /\ Forall (fun op => is_write op = false) (store_calls (trace (h req w))))
    [genre_list; genre_detail; genre_create_get; genre_delete_get; genre_update_get].
Proof. apply display_handlers_cases. Qed.

(** ** One response for each request *)

Lemma create_post_one_response w req :
  exists e, responses (trace (dispatch genre_create_post req w)) = [e]
            /\ is_throw e = false.
Proof.
  unfold genre_create_post. cbn [dispatch]. unfold body. simpl.
  destruct (Validator.isLength 2 (Validator.trim (body_name req)));
    destruct (validation_errors req) as [|v vs]; unfold_handlers;
    repeat handler_case; by eexists.
Qed.

(** X2. The list, detail, create-display, create-submit, delete-submit and
    update-display handlers answer every request with exactly one call among
    render, redirect and next, whatever the store holds and whichever of its
    calls fail, and never by an uncaught exception. *)
Theorem handlers_answer_exactly_once (w : World) (req : Request) :
  Forall (fun h : Request -> Eff unit =>
            exists e, responses (trace (h req w)) = [e] /\ is_throw e = false)
    [genre_list; genre_detail; genre_create_get; dispatch genre_create_post;
     genre_delete_post; genre_update_get].
Proof.
  repeat apply Forall_cons_2; [| | |apply create_post_one_response| | |apply Forall_nil_2];
    unfold_handlers; repeat handler_case; by eexists.
Qed.

(** X3. The delete-display handler answers twice exactly when both of its
    lookups succeed and no Genre has the route id; in every other case, a
    failing lookup or a Genre that exists, it answers exactly once. *)
Theorem delete_get_answers_twice_only_for_a_missing_genre (w : World) (req : Request) :
  let n := length (responses (trace (genre_delete_get req w))) in
  (n = 1 \/ n = 2)
  /\ (n = 2 <->
      fault w (Genre_findById (params_id req)) = None
      /\ fault w (Book_find_genre (params_id req)) = None
      /\ genres w !! params_id req = None).
Proof.
  unfold_handlers. repeat handler_case; split; auto; split;
    try discriminate; try done; intros (? & ? & ?); discriminate.
Qed.

(** X4. When a lookup of the pair run in parallel fails, the detail, the
    delete-display and the delete-submit handlers have still issued both
    lookups, hand the error of a failed lookup to [next] as their only
    response, and leave the world as it was. *)
Theorem failed_lookup_goes_to_next (w : World) (id : Id) (e0 : Error) :
  fault w (Genre_findById id) = Some e0 \/ fault w (Book_find_genre id) = Some e0 ->
  exists e,
    (fault w (Genre_findById id) = Some e \/ fault w (Book_find_genre id) = Some e)
    /\ forall req,
         let failed :=
           (tt, w, [Store (Genre_findById id); Store (Book_find_genre id); Next e]) in
         (params_id req = id ->
            genre_detail req w = failed /\ genre_delete_get req w = failed)
         /\ (body_genreid req = id -> genre_delete_post req w = failed).
Proof.
  intros Hfail.
  destruct (fault w (Genre_findById id)) as [e1|] eqn:H1.
  - exists e1. split; [by left|]. intros req. simpl.
    split; [intros <-|intros <-]; unfold_handlers; rewrite H1; simpl;
      destruct (fault w (Book_find_genre _)); done.
  - destruct (fault w (Book_find_genre id)) as [e2|] eqn:H2.
    + exists e2. split; [by right|]. intros req. simpl.
      split; [intros <-|intros <-]; unfold_handlers; by rewrite H1, H2.
    + destruct Hfail; discriminate.
Qed.

Lemma failed_lookup_goes_to_next_witness :
  let w := library_failing
             (fun op => match op with Book_find_genre _ => true | _ => false end) in
  (fault w (Genre_findById 1) = Some outage \/ fault w (Book_find_genre 1) = Some outage)
  /\ genre_delete_post (request 0 EmptyString 1) w =
       (tt, w, [Store (Genre_findById 1); Store (Book_find_genre 1); Next outage])
  /\ genre_detail (request 1 EmptyString 0) w =
       (tt, w, [Store (Genre_findById 1); Store (Book_find_genre 1); Next outage]).
Proof.
  intros w.
  assert (Hf : fault w (Genre_findById 1) = Some outage
               \/ fault w (Book_find_genre 1) = Some outage)
    by (right; reflexivity).
  destruct (failed_lookup_goes_to_next w 1 outage Hf) as (e & He & Hrun).
  assert (e = outage) as ->.
  { destruct He as [He|He].
    - change (None = Some e) in He. discriminate He.
    - change (Some outage = Some e) in He. by injection He. }
  split; [exact Hf|]. split.
  - exact (proj2 (Hrun (request 0 EmptyString 1)) eq_refl).
  - exact (proj1 (proj1 (Hrun (request 1 EmptyString 0)) eq_refl)).
Defined.

(** ** Store failures on the submit routes *)

(** X5. On a create-submit request with a valid name, a failure of the lookup
    by name or of the insert is handed to [next] as the only response: no
    redirect is sent and the Genre collection is as before; a failed lookup
    is not followed by an insert. *)
Theorem create_post_store_failure_goes_to_next
    (w : World) (id gid : Id) (raw : string) (e : Error) :
  2 <= String.length (Validator.trim raw) ->
  let find := Genre_findOne_name (sanitized raw) in
  let save := Genre_save {| _id := next_oid w; name := sanitized raw |} in
  (fault w find = Some e ->
     dispatch genre_create_post (request id raw gid) w =
       (tt, draw_oid w, [Store find; Next e]))
  /\ (fault w find = None ->
      (forall i, genres w !! i <> Some (sanitized raw)) ->
      fault w save = Some e ->
      dispatch genre_create_post (request id raw gid) w =
        (tt, draw_oid w, [Store find; Store save; Next e]))
  /\ genres (draw_oid w) = genres w.
Proof.
  intros Hlong find save. subst find save.
  rewrite genre_create_post_accepted by done.
  split; [|split; [|done]].
  - intros Hf. unfold_handlers. by rewrite Hf.
  - intros Hf Habsent Hs. unfold_handlers. rewrite Hf. simpl.
    pose proof (named_absent w _ Habsent) as Hnone.
    unfold all_genres in *. simpl. rewrite Hnone. simpl. by rewrite Hs.
Qed.

Lemma create_post_store_failure_goes_to_next_witness :
  let w := library_failing
             (fun op => match op with Genre_save _ => true | _ => false end) in
  2 <= String.length (Validator.trim "Poetry") /\
  fault w (Genre_findOne_name (sanitized "Poetry")) = None /\
  fault w (Genre_save {| _id := 9; name := sanitized "Poetry" |}) = Some outage /\
  responses (trace (dispatch genre_create_post (request 0 "Poetry" 0) w)) = [Next outage] /\
  genres (world_after (dispatch genre_create_post (request 0 "Poetry" 0) w)) = genres w.
Proof.
  intros w.
  assert (Hl : 2 <= String.length (Validator.trim "Poetry")) by (vm_compute; lia).
  destruct (create_post_store_failure_goes_to_next w 0 0 "Poetry" outage Hl)
    as (_ & Hsave & _).
  assert (Hf : fault w (Genre_findOne_name (sanitized "Poetry")) = None) by reflexivity.
  assert (Hs : fault w (Genre_save {| _id := next_oid w; name := sanitized "Poetry" |})
               = Some outage) by reflexivity.
  assert (Ha : forall i, genres w !! i <> Some (sanitized "Poetry")).
  { intros i Hi. apply (elem_of_map_to_list (genres w)) in Hi.
    vm_compute in Hi. repeat (apply elem_of_cons in Hi as [Hi|Hi]; [discriminate Hi|]).
    by apply not_elem_of_nil in Hi. }
  split; [exact Hl|]. split; [exact Hf|]. split; [exact Hs|].
  rewrite (Hsave Hf Ha Hs). split; reflexivity.
Defined.

(** X6. On a delete-submit request with no dependent Book, a failure of the
    delete by id is handed to [next] as the only response: no redirect is
    sent and the Genre is still in the store. *)
Theorem delete_post_failed_remove_keeps_the_genre
    (w : World) (req : Request) (e : Error) :
  fault w (Genre_findById (body_genreid req)) = None ->
  fault w (Book_find_genre (body_genreid req)) = None ->
  fault w (Genre_findByIdAndRemove (body_genreid req)) = Some e ->
  dependent_books w (body_genreid req) = [] ->
  genre_delete_post req w =
    (tt, w,
     [Store (Genre_findById (body_genreid req));
      Store (Book_find_genre (body_genreid req));
      Store (Genre_findByIdAndRemove (body_genreid req));
      Next e]).
Proof. apply genre_delete_post_remove_error. Qed.

Lemma delete_post_failed_remove_keeps_the_genre_witness :
  let w := library_failing
             (fun op => match op with Genre_findByIdAndRemove _ => true | _ => false end) in
  let req := request 0 EmptyString 5 in
  fault w (Genre_findById 5) = None /\ fault w (Book_find_genre 5) = None /\
  fault w (Genre_findByIdAndRemove 5) = Some outage /\
  dependent_books w 5 = [] /\
  responses (trace (genre_delete_post req w)) = [Next outage] /\
  genres (world_after (genre_delete_post req w)) !! 5 = Some "Crime".
Proof.
  intros w req.
  pose proof (delete_post_failed_remove_keeps_the_genre w req outage
                eq_refl eq_refl eq_refl eq_refl) as Hrun.
  split; [reflexivity|]. split; [reflexivity|]. split; [reflexivity|].
  split; [reflexivity|]. rewrite Hrun. split; [reflexivity|].
  vm_compute. reflexivity.
Defined.

(** ** The update route *)

(** X7. The update-submit route takes every name as it comes: whatever the
    name and the world, it issues the update by id with the name of the
    request and never renders the form.  The answer is the redirect to the
    Genre when the store holds the id; with no Genre of that id nothing is
    written and reading the [url] of the null result throws; a failure of
    the store goes to [next] and nothing is written. *)
Theorem update_post_outcomes (w : World) (id gid : Id) (n : string) :
  let op := Genre_findByIdAndUpdate id {| _id := id; name := n |} in
  dispatch genre_update_post (request id n gid) w =
    match fault w op, genres w !! id with
    | Some e, _ => (tt, w, [Store op; Next e])
    | None, Some _ =>
        (tt, set_genres w (<[id := n]> (genres w)),
         [Store op; Redirect ("/catalog/genre/" +:+ pretty id)])
    | None, None =>
        (tt, w, [Store op;
                 Throw "TypeError: Cannot read properties of null (reading 'url')"])
    end.
Proof.
  intros op. subst op. rewrite genre_update_post_stack. cbn [dispatch].
  unfold_handlers.
  destruct (fault w _); [done|]. by destruct (genres w !! id).
Qed.

(** X8. The update-submit route does not look for the name among the other
    Genres: renaming a Genre to the name another Genre has is accepted with
    a redirect and leaves two Genres of that name in the store. *)
Theorem update_post_can_duplicate_a_name
    (w : World) (i j gid : Id) (n old : string) :
  healthy w -> i <> j ->
  genres w !! i = Some n -> genres w !! j = Some old ->
  let r := dispatch genre_update_post (request j n gid) w in
  responses (trace r) = [Redirect ("/catalog/genre/" +:+ pretty j)]
  /\ genres (world_after r) !! i = Some n
  /\ genres (world_after r) !! j = Some n
  /\ {| _id := i; name := n |} ∈ all_genres (world_after r)
  /\ {| _id := j; name := n |} ∈ all_genres (world_after r).
Proof.
  intros Hw Hij Hi Hj r. subst r.
  rewrite (update_post_run w j n gid old Hw Hj).
  assert (Hi' : <[j:=n]> (genres w) !! i = Some n) by by rewrite lookup_insert_ne.
  assert (Hj' : <[j:=n]> (genres w) !! j = Some n) by apply lookup_insert_eq.
  split; [done|]. split; [done|]. split; [done|].
  split; by apply elem_of_all_genres.
Qed.

Lemma update_post_can_duplicate_a_name_witness :
  healthy library /\ 1 <> 2 /\
  genres library !! 1 = Some "Fiction" /\ genres library !! 2 = Some "Western" /\
  let w' := world_after (dispatch genre_update_post (request 2 "Fiction" 0) library) in
  genres w' !! 1 = Some "Fiction" /\ genres w' !! 2 = Some "Fiction".
Proof.
  assert (Hh : healthy library) by apply no_fault_healthy.
  assert (Hne : 1 <> 2) by lia.
  assert (H1 : genres library !! 1 = Some "Fiction") by (vm_compute; reflexivity).
  assert (H2 : genres library !! 2 = Some "Western") by (vm_compute; reflexivity).
  destruct (update_post_can_duplicate_a_name library 1 2 0 "Fiction" "Western"
              Hh Hne H1 H2) as (_ & Hi & Hj & _).
  split; [exact Hh|]. split; [exact Hne|]. split; [exact H1|]. split; [exact H2|].
  split; [exact Hi|exact Hj].
Defined.

(** X9. Posting to the update route the name the Genre already has leaves
    the world exactly as it was. *)
Theorem update_post_with_the_same_name_changes_nothing
    (w : World) (id gid : Id) (n : string) :
  healthy w -> genres w !! id = Some n ->
  dispatch genre_update_post (request id n gid) w =
    (tt, w,
     [Store (Genre_findByIdAndUpdate id {| _id := id; name := n |});
      Redirect ("/catalog/genre/" +:+ pretty id)]).
Proof.
  intros Hw Hn. rewrite (update_post_run w id n gid n Hw Hn).
  by rewrite insert_id, set_genres_same.
Qed.

Lemma update_post_with_the_same_name_changes_nothing_witness :
  healthy library /\ genres library !! 5 = Some "Crime" /\
  world_after (dispatch genre_update_post (request 5 "Crime" 0) library) = library.
Proof.
  assert (Hh : healthy library) by apply no_fault_healthy.
  assert (H5 : genres library !! 5 = Some "Crime") by (vm_compute; reflexivity).
  split; [exact Hh|]. split; [exact H5|].
  by rewrite (update_post_with_the_same_name_changes_nothing library 5 0 "Crime" Hh H5).
Defined.

(** ** Create composed with detail and delete *)

(** X10. Creating a Genre under a valid name no Genre has yet, on a store
    that takes the insert, redirects to a location whose detail request
    renders the new Genre: it has the id drawn for the candidate and the
    trimmed and escaped name, and no Books. *)
Theorem create_post_then_detail_shows_the_sanitized_name
    (w : World) (id gid : Id) (raw : string) :
  healthy w ->
  2 <= String.length (Validator.trim raw) ->
  (forall i, genres w !! i <> Some (sanitized raw)) ->
  genres w !! next_oid w = None ->
  let r := dispatch genre_create_post (request id raw gid) w in
  responses (trace r) = [Redirect ("/catalog/genre/" +:+ pretty (next_oid w))]
  /\ forall req', params_id req' = next_oid w ->
       genre_detail req' (world_after r) =
         (tt, world_after r,
          [Store (Genre_findById (next_oid w)); Store (Book_find_genre (next_oid w));
           Render "genre_detail"
             {| View.title := "Genre Detail";
                View.genre :=
                  Some (Some {| _id := next_oid w; name := sanitized raw |});
                View.genre_books := Some (dependent_books w (next_oid w));
                View.genre_list := None; View.errors := None |}]).
Proof.
  intros Hw Hlong Habsent Hfresh r. subst r.
  rewrite create_post_new by done. split; [done|].
  intros req' Hid. unfold world_after. simpl.
  rewrite (genre_detail_found _ req' (sanitized raw)).
  - by rewrite Hid.
  - by apply healthy_set_genres, healthy_draw_oid.
  - rewrite Hid. apply lookup_insert_eq.
Qed.

Lemma create_post_then_detail_shows_the_sanitized_name_witness :
  healthy library /\ 2 <= String.length (Validator.trim " Sci/Fi ") /\
  genres library !! next_oid library = None /\
  let r := dispatch genre_create_post (request 0 " Sci/Fi " 0) library in
  responses (trace r) = [Redirect "/catalog/genre/9"] /\
  responses (trace (genre_detail (request 9 EmptyString 0) (world_after r))) =
    [Render "genre_detail"
       {| View.title := "Genre Detail";
          View.genre := Some (Some {| _id := 9; name := "Sci&#x2F;Fi" |});
          View.genre_books := Some [];
          View.genre_list := None; View.errors := None |}].
Proof.
  assert (Hh : healthy library) by apply no_fault_healthy.
  assert (Hl : 2 <= String.length (Validator.trim " Sci/Fi ")) by (vm_compute; lia).
  assert (Hf : genres library !! next_oid library = None) by (vm_compute; reflexivity).
  assert (Ha : forall i, genres library !! i <> Some (sanitized " Sci/Fi ")).
  { intros i Hi. apply (elem_of_map_to_list (genres library)) in Hi.
    vm_compute in Hi. repeat (apply elem_of_cons in Hi as [Hi|Hi]; [discriminate Hi|]).
    by apply not_elem_of_nil in Hi. }
  destruct (create_post_then_detail_shows_the_sanitized_name library 0 0 " Sci/Fi "
              Hh Hl Ha Hf) as [Hredirect Hdetail].
  split; [exact Hh|]. split; [exact Hl|]. split; [exact Hf|].
  split; [exact Hredirect|].
  rewrite (Hdetail (request 9 EmptyString 0) eq_refl). reflexivity.
Defined.

(** X11. Creating a Genre under a valid new name and then deleting the id it
    got, while no Book refers to that id, gives back the Genre collection
    there was before the two requests. *)
Theorem create_post_then_delete_post_restores_the_genres
    (w : World) (id gid : Id) (raw : string) (req' : Request) :
  healthy w ->
  2 <= String.length (Validator.trim raw) ->
  (forall i, genres w !! i <> Some (sanitized raw)) ->
  genres w !! next_oid w = None ->
  dependent_books w (next_oid w) = [] ->
  body_genreid req' = next_oid w ->
  let w1 := world_after (dispatch genre_create_post (request id raw gid) w) in
  let w2 := world_after (genre_delete_post req' w1) in
  genres w1 !! next_oid w = Some (sanitized raw)
  /\ genres w2 = genres w
  /\ books w2 = books w
  /\ responses (trace (genre_delete_post req' w1)) = [Redirect "/catalog/genres"].
Proof.
  intros Hw Hlong Habsent Hfresh Hdep Hid w1 w2. subst w2 w1.
  rewrite create_post_new by done.
  set (w1 := set_genres (draw_oid w) (<[next_oid w:=sanitized raw]> (genres w))).
  change (world_after (tt, w1, _)) with w1.
  assert (Hw1 : healthy w1) by by apply healthy_set_genres, healthy_draw_oid.
  rewrite (genre_delete_post_free w1 req' Hw1) by (by rewrite Hid).
  unfold world_after, trace. simpl. rewrite Hid.
  split; [apply lookup_insert_eq|].
  split; [by rewrite delete_insert_eq, delete_id|done].
Qed.

Lemma create_post_then_delete_post_restores_the_genres_witness :
  healthy library /\ 2 <= String.length (Validator.trim "Poetry") /\
  genres library !! next_oid library = None /\
  dependent_books library (next_oid library) = [] /\
  genres (world_after
            (genre_delete_post (request 0 EmptyString 9)
               (world_after (dispatch genre_create_post (request 0 "Poetry" 0) library))))
  = genres library.
Proof.
  assert (Hh : healthy library) by apply no_fault_healthy.
  assert (Hl : 2 <= String.length (Validator.trim "Poetry")) by (vm_compute; lia).
  assert (Hf : genres library !! next_oid library = None) by (vm_compute; reflexivity).
  assert (Hd : dependent_books library (next_oid library) = []) by reflexivity.
  assert (Ha : forall i, genres library !! i <> Some (sanitized "Poetry")).
  { intros i Hi. apply (elem_of_map_to_list (genres library)) in Hi.
    vm_compute in Hi. repeat (apply elem_of_cons in Hi as [Hi|Hi]; [discriminate Hi|]).
    by apply not_elem_of_nil in Hi. }
  destruct (create_post_then_delete_post_restores_the_genres library 0 0 "Poetry"
              (request 0 EmptyString 9) Hh Hl Ha Hf Hd eq_refl) as (_ & Hback & _).
  split; [exact Hh|]. split; [exact Hl|]. split; [exact Hf|]. split; [exact Hd|].
  exact Hback.
Defined.

(** ** What the handlers never touch *)

Lemma create_post_cases w req :
  let n := sanitized (body_name req) in
  let w' := world_after (dispatch genre_create_post req w) in
  books w' = books w /\ fault w' = fault w /\ next_oid w' = S (next_oid w)
  /\ (genres w' = genres w
      \/ genres w !! next_oid w = None /\ genres w' = <[next_oid w := n]> (genres w)).
Proof.
  unfold genre_create_post. cbn [dispatch]. unfold body. simpl.
  destruct (Validator.isLength 2 (Validator.trim (body_name req)));
    destruct (validation_errors req) as [|v vs]; unfold_handlers;
    repeat handler_case; auto 10.
Qed.

Lemma update_post_cases w req :
  let w' := world_after (dispatch genre_update_post req w) in
  books w' = books w /\ fault w' = fault w /\ next_oid w' = next_oid w
  /\ (genres w' = genres w
      \/ is_Some (genres w !! params_id req)
         /\ genres w' = <[params_id req := body_name req]> (genres w)).
Proof.
  rewrite genre_update_post_stack. cbn [dispatch].
  destruct (validation_errors req) as [|v vs] eqn:Hv; unfold_handlers;
    rewrite Hv; simpl; repeat handler_case; eauto 10.
Qed.

Lemma delete_post_cases w req :
  let w' := world_after (genre_delete_post req w) in
  books w' = books w /\ fault w' = fault w /\ next_oid w' = next_oid w
  /\ (genres w' = genres w \/ genres w' = delete (body_genreid req) (genres w)).
Proof. unfold_handlers. repeat handler_case; auto 10. Qed.

(** X12. No route of the controller changes the Book collection, whatever
    the request and whichever store calls fail; and only the create-submit
    route draws an ObjectId, one for each request. *)
Theorem handlers_never_change_the_books (w : World) (req : Request) :
  Forall (fun h : Request -> Eff unit => books (world_after (h req w)) = books w)
    [genre_list; genre_detail; genre_create_get; dispatch genre_create_post;
     genre_delete_get; genre_delete_post; genre_update_get;
     dispatch genre_update_post]
  /\ Forall (fun h : Request -> Eff unit =>
               next_oid (world_after (h req w)) = next_oid w)
       [genre_list; genre_detail; genre_create_get; genre_delete_get;
        genre_delete_post; genre_update_get; dispatch genre_update_post]
  /\ next_oid (world_after (dispatch genre_create_post req w)) = S (next_oid w).
Proof.
  pose proof (display_handlers_cases w req) as Hget.
  apply Forall_cons_1 in Hget as [[Hl _] Hget].
  apply Forall_cons_1 in Hget as [[Hd _] Hget].
  apply Forall_cons_1 in Hget as [[Hc _] Hget].
  apply Forall_cons_1 in Hget as [[Hg _] Hget].
  apply Forall_cons_1 in Hget as [[Hu _] _].
  destruct (create_post_cases w req) as (Hcb & _ & Hco & _).
  destruct (update_post_cases w req) as (Hub & _ & Huo & _).
  destruct (delete_post_cases w req) as (Hdb & _ & Hdo & _).
  split; [|split; [|done]]; repeat apply Forall_cons_2; try apply Forall_nil_2;
    try done; by rewrite ?Hl, ?Hd, ?Hc, ?Hg, ?Hu.
Qed.

(** X13. A create-submit request never removes or renames a Genre the store
    holds, whatever the request and whichever store calls fail: the Genre
    collection after it is the one before, possibly with one Genre more
    under the id drawn for the candidate, and only when that id was free. *)
Theorem create_post_keeps_the_existing_genres (w : World) (req : Request) :
  let w' := world_after (dispatch genre_create_post req w) in
  genres w ⊆ genres w'
  /\ (forall j, j <> next_oid w -> genres w' !! j = genres w !! j)
  /\ size (genres w') <= S (size (genres w)).
Proof.
  intros w'. destruct (create_post_cases w req) as (_ & _ & _ & [Hsame|[Hfresh Hnew]]);
    fold w' in Hsame || fold w' in Hnew.
  - rewrite Hsame. split; [done|]. split; [done|lia].
  - rewrite Hnew. split; [by apply insert_subseteq|].
    split; [intros j Hj; by apply lookup_insert_ne|].
    by rewrite map_size_insert_None.
Qed.

(** X14. A delete-submit request changes no Genre other than the one of the
    id in its body and never adds one, whatever the request and whichever
    store calls fail; the route id is not looked at. *)
Theorem delete_post_touches_only_the_body_id (w : World) (req : Request) :
  let w' := world_after (genre_delete_post req w) in
  genres w' ⊆ genres w
  /\ (forall j, j <> body_genreid req -> genres w' !! j = genres w !! j).
Proof.
  intros w'. destruct (delete_post_cases w req) as (_ & _ & _ & [Hsame|Hdel]);
    fold w' in Hsame || fold w' in Hdel.
  - by rewrite Hsame.
  - rewrite Hdel. split; [apply delete_subseteq|].
    intros j Hj. by apply lookup_delete_ne.
Qed.

(** ** The name the create route stores *)

(** X15. Whatever the request and whichever store calls fail, a name the
    create-submit route adds to the store holds no quote, angle bracket,
    slash, backslash or backquote: every Genre of the store after the
    request either was there before or has a name free of markup. *)
Theorem create_post_never_stores_markup (w : World) (req : Request) (j : Id) (n : string) :
  genres (world_after (dispatch genre_create_post req w)) !! j = Some n ->
  genres w !! j = Some n \/ Validator.has_markup n = false.
Proof.
  intros Hj.
  destruct (create_post_cases w req) as (_ & _ & _ & [Hsame|[Hfresh Hnew]]).
  - left. by rewrite <- Hsame.
  - rewrite Hnew in Hj. destruct (decide (j = next_oid w)) as [->|Hne].
    + rewrite lookup_insert_eq in Hj. injection Hj as <-.
      right. apply sanitized_has_no_markup.
    + left. by rewrite lookup_insert_ne in Hj.
Qed.

Lemma create_post_never_stores_markup_witness :
  let w' := world_after (dispatch genre_create_post (request 0 "<b>Noir</b>" 0) library) in
  genres w' !! 9 = Some "&lt;b&gt;Noir&lt;&#x2F;b&gt;" /\
  (genres library !! 9 = Some "&lt;b&gt;Noir&lt;&#x2F;b&gt;"
   \/ Validator.has_markup "&lt;b&gt;Noir&lt;&#x2F;b&gt;" = false).
Proof.
  intros w'.
  assert (H9 : genres w' !! 9 = Some "&lt;b&gt;Noir&lt;&#x2F;b&gt;")
    by (vm_compute; reflexivity).
  split; [exact H9|].
  exact (create_post_never_stores_markup library (request 0 "<b>Noir</b>" 0) 9 _ H9).
Defined.

Lemma ltrim_all_whitespace s : all_whitespace s = true -> Validator.ltrim s = EmptyString.
Proof.
  induction s as [|c s IH]; [done|]. simpl.
  intros [Hc Hs]%andb_true_iff. rewrite Hc. by apply IH.
Qed.

(** X16. A create-submit request whose name is empty or made of whitespace
    only is rejected in every world: the form is rendered again with the
    empty name and the error about the length, and no store call is made. *)
Theorem create_post_rejects_blank_names (w : World) (id gid : Id) (raw : string) :
  all_whitespace raw = true ->
  dispatch genre_create_post (request id raw gid) w =
    (tt, draw_oid w,
     [Render "genre_form"
        {| View.title := "Create Genre";
           View.genre := Some (Some {| _id := next_oid w; name := EmptyString |});
           View.genre_books := None; View.genre_list := None;
           View.errors :=
             Some [ {| value := EmptyString;
                       msg := "Genre name must contain at least 2 characters";
                       param := "name"; location := "body" |} ] |}]).
Proof.
  intros Hblank.
  assert (Htrim : Validator.trim raw = EmptyString).
  { unfold Validator.trim. by rewrite ltrim_all_whitespace. }
  rewrite genre_create_post_rejected by (rewrite Htrim; simpl; lia).
  unfold sanitized. by rewrite Htrim.
Qed.

Lemma create_post_rejects_blank_names_witness :
  all_whitespace "   " = true /\
  store_calls (trace (dispatch genre_create_post (request 0 "   " 0) library)) = [] /\
  world_after (dispatch genre_create_post (request 0 "   " 0) library) = draw_oid library.
Proof.
  assert (Hb : all_whitespace "   " = true) by reflexivity.
  split; [exact Hb|].
  rewrite (create_post_rejects_blank_names library 0 0 "   " Hb).
  split; reflexivity.
Defined.

(** ** Sanitized names do not collide *)

Lemma escape_char_plain c :
  is_escaped c = false -> Validator.escape_char c = String c EmptyString.
Proof. destruct c as [[] [] [] [] [] [] [] []]; (discriminate || reflexivity). Qed.

Lemma is_escaped_cases c :
  is_escaped c = true ->
  c = "&"%char \/ c = "034"%char \/ c = "'"%char \/ c = "<"%char \/
  c = ">"%char \/ c = "/"%char \/ c = "\"%char \/ c = "`"%char.
Proof.
  destruct c as [[] [] [] [] [] [] [] []]; intros H;
    try discriminate H; auto 10.
Qed.

Lemma escape_char_prefix c1 c2 r1 r2 :
  Validator.escape_char c1 +:+ r1 = Validator.escape_char c2 +:+ r2 ->
  c1 = c2 /\ r1 = r2.
Proof.
  destruct (is_escaped c1) eqn:H1; destruct (is_escaped c2) eqn:H2.
  - apply is_escaped_cases in H1, H2.
    destruct H1 as [->|[->|[->|[->|[->|[->|[->| ->]]]]]]];
      destruct H2 as [->|[->|[->|[->|[->|[->|[->| ->]]]]]]];
      intros H; cbv in H; first [discriminate H | by injection H].
  - rewrite (escape_char_plain c2 H2). apply is_escaped_cases in H1.
    destruct H1 as [->|[->|[->|[->|[->|[->|[->| ->]]]]]]];
      intros H; cbv in H; injection H as <- _; discriminate H2.
  - rewrite (escape_char_plain c1 H1). apply is_escaped_cases in H2.
    destruct H2 as [->|[->|[->|[->|[->|[->|[->| ->]]]]]]];
      intros H; cbv in H; injection H as -> _; discriminate H1.
  - rewrite (escape_char_plain c1 H1), (escape_char_plain c2 H2).
    intros H. change (String c1 r1 = String c2 r2) in H. by injection H.
Qed.

Lemma escape_inj s1 s2 : Validator.escape s1 = Validator.escape s2 -> s1 = s2.
Proof.
  revert s2. induction s1 as [|c1 s1 IH]; intros [|c2 s2] H; [done| | |].
  - exfalso. simpl in H.
    destruct c2 as [[] [] [] [] [] [] [] []]; discriminate H.
  - exfalso. simpl in H.
    destruct c1 as [[] [] [] [] [] [] [] []]; discriminate H.
  - simpl in H. apply escape_char_prefix in H as [-> H]. f_equal. by apply IH.
Qed.

(** X17. Two names that differ after trimming have different sanitized
    names, so the lookup by name never takes one for the other: after a
    Genre is created under the first name, a create of the second name is
    not redirected to it but inserts its own Genre. *)
Theorem create_post_distinct_names_do_not_collide
    (w : World) (id gid : Id) (a b : string) :
  healthy w ->
  2 <= String.length (Validator.trim a) ->
  2 <= String.length (Validator.trim b) ->
  Validator.trim a <> Validator.trim b ->
  (forall i, genres w !! i <> Some (sanitized a)) ->
  (forall i, genres w !! i <> Some (sanitized b)) ->
  genres w !! next_oid w = None ->
  genres w !! S (next_oid w) = None ->
  sanitized a <> sanitized b
  /\ let w1 := world_after (dispatch genre_create_post (request id a gid) w) in
     let second := {| _id := S (next_oid w); name := sanitized b |} in
     trace (dispatch genre_create_post (request id b gid) w1) =
       [Store (Genre_findOne_name (sanitized b)); Store (Genre_save second);
        Redirect (url second)]
     /\ genres (world_after (dispatch genre_create_post (request id b gid) w1)) =
          <[S (next_oid w) := sanitized b]>
            (<[next_oid w := sanitized a]> (genres w)).
Proof.
  intros Hw Ha Hb Hdiff Hna Hnb Hf1 Hf2.
  assert (Hsan : sanitized a <> sanitized b).
  { unfold sanitized. intros Heq. by apply Hdiff, escape_inj. }
  split; [done|]. intros w1 second. subst w1 second.
  rewrite (create_post_new w id a gid) by done.
  set (w1 := set_genres (draw_oid w) (<[next_oid w:=sanitized a]> (genres w))).
  change (world_after (tt, w1, _)) with w1.
  assert (Hw1 : healthy w1) by by apply healthy_set_genres, healthy_draw_oid.
  rewrite (create_post_new w1 id b gid); [done|done|done| |].
  - intros i. simpl. destruct (decide (i = next_oid w)) as [->|Hne].
    + rewrite lookup_insert_eq. congruence.
    + rewrite lookup_insert_ne by done. apply Hnb.
  - simpl. by rewrite lookup_insert_ne by lia.
Qed.

Lemma create_post_distinct_names_do_not_collide_witness :
  healthy empty_world /\
  Validator.trim "a<b" <> Validator.trim "a>b" /\
  sanitized "a<b" <> sanitized "a>b" /\
  genres (world_after
            (dispatch genre_create_post (request 0 "a>b" 0)
               (world_after (dispatch genre_create_post (request 0 "a<b" 0) empty_world))))
  = <[1 := "a&gt;b"]> (<[0 := "a&lt;b"]> ∅).
Proof.
  assert (Hh : healthy empty_world) by apply no_fault_healthy.
  assert (Ha : 2 <= String.length (Validator.trim "a<b")) by (vm_compute; lia).
  assert (Hb : 2 <= String.length (Validator.trim "a>b")) by (vm_compute; lia).
  assert (Hd : Validator.trim "a<b" <> Validator.trim "a>b") by discriminate.
  assert (Hn : forall n i, genres empty_world !! i <> Some n)
    by (intros n i; simpl; by rewrite lookup_empty).
  assert (Hf : forall i, genres empty_world !! i = None)
    by (intros i; simpl; by rewrite lookup_empty).
  destruct (create_post_distinct_names_do_not_collide empty_world 0 0 "a<b" "a>b"
              Hh Ha Hb Hd (Hn _) (Hn _) (Hf _) (Hf _)) as (Hsan & _ & Hgenres).
  split; [exact Hh|]. split; [exact Hd|]. split; [exact Hsan|].
  exact Hgenres.
Defined.

(** ** Names stay unique under create *)

Lemma create_post_inserts_only_new_names w req :
  let n := sanitized (body_name req) in
  let w' := world_after (dispatch genre_create_post req w) in
  genres w' = genres w
  \/ (forall i, genres w !! i <> Some n)
     /\ 2 <= String.length (Validator.trim (body_name req))
     /\ genres w !! next_oid w = None
     /\ genres w' = <[next_oid w := n]> (genres w).
Proof.
  intros n w'. subst w'.
  unfold genre_create_post. cbn [dispatch]. unfold body. simpl.
  destruct (Validator.isLength 2 (Validator.trim (body_name req))) eqn:Hlen;
    destruct (validation_errors req) as [|v vs]; unfold_handlers;
    try (left; repeat handler_case; reflexivity).
  destruct (fault w _); simpl; [by left|].
  destruct (head _) as [found|] eqn:Hhead; simpl; [by left|].
  destruct (fault w _); simpl; [by left|].
  destruct (genres w !! next_oid w) eqn:Hfresh; simpl; [by left|].
  right. split; [|split; [by apply isLength_true|done]].
  intros i Hi. destruct (named_present w _ i Hi) as (j & _ & Hfound).
  change (head (filter (fun g => name g = n) (all_genres w)) = None) in Hhead.
  rewrite Hhead in Hfound. discriminate Hfound.
Qed.

Lemma string_length_append s1 s2 :
  String.length (s1 +:+ s2) = String.length s1 + String.length s2.
Proof.
  induction s1 as [|c s1 IH]; [done|].
  change (String c s1 +:+ s2) with (String c (s1 +:+ s2)). simpl. by rewrite IH.
Qed.

Lemma escape_char_length c : 1 <= String.length (Validator.escape_char c).
Proof. destruct c as [[] [] [] [] [] [] [] []]; simpl; lia. Qed.

Lemma escape_length s : String.length s <= String.length (Validator.escape s).
Proof.
  induction s as [|c s IH]; [done|]. simpl. rewrite string_length_append.
  pose proof (escape_char_length c). lia.
Qed.

(** X19. When every name in the store has at least 2 characters, a
    create-submit request leaves it so, whatever the request and whichever
    store calls fail: escaping never shortens a name, and a name is stored
    only after its trimmed form passed the length check. *)
Theorem create_post_keeps_names_long (w : World) (req : Request) :
  (forall j n, genres w !! j = Some n -> 2 <= String.length n) ->
  forall j n,
    genres (world_after (dispatch genre_create_post req w)) !! j = Some n ->
    2 <= String.length n.
Proof.
  intros Hlong j n.
  destruct (create_post_inserts_only_new_names w req)
    as [Hsame|(_ & Hlen & _ & Hnew)].
  - rewrite Hsame. apply Hlong.
  - rewrite Hnew. destruct (decide (j = next_oid w)) as [->|Hj].
    + rewrite lookup_insert_eq. intros [= <-]. unfold sanitized.
      pose proof (escape_length (Validator.trim (body_name req))). lia.
    + rewrite lookup_insert_ne by done. apply Hlong.
Qed.

Lemma create_post_keeps_names_long_witness :
  (forall j n, genres empty_world !! j = Some n -> 2 <= String.length n) /\
  genres (world_after (dispatch genre_create_post (request 0 " <> " 0) empty_world)) !! 0
  = Some "&lt;&gt;" /\
  2 <= String.length "&lt;&gt;".
Proof.
  assert (H0 : forall j n, genres empty_world !! j = Some n -> 2 <= String.length n).
  { intros j n Hj. simpl in Hj. by rewrite lookup_empty in Hj. }
  assert (H1 : genres (world_after (dispatch genre_create_post (request 0 " <> " 0)
                                      empty_world)) !! 0 = Some "&lt;&gt;")
    by (vm_compute; reflexivity).
  split; [exact H0|]. split; [exact H1|].
  exact (create_post_keeps_names_long empty_world (request 0 " <> " 0) H0 0 _ H1).
Defined.

(** ** Displaying a Genre the store holds *)

Lemma genre_delete_get_found w req n :
  healthy w -> genres w !! params_id req = Some n ->
  genre_delete_get req w =
    (tt, w,
     [Store (Genre_findById (params_id req));
      Store (Book_find_genre (params_id req));
      Render "genre_delete"
        {| View.title := "Delete Genre";
           View.genre := Some (Some {| _id := params_id req; name := n |});
           View.genre_books := Some (dependent_books w (params_id req));
           View.genre_list := None; View.errors := None |}]).
Proof.
  intros Hw Hn. unfold genre_delete_get, bind.
  rewrite parallel_genre_books_ok by done.
  unfold genre_by_id. by rewrite Hn.
Qed.

Lemma genre_update_get_found w req n :
  healthy w -> genres w !! params_id req = Some n ->
  genre_update_get req w =
    (tt, w,
     [Store (Genre_findById (params_id req));
      Render "genre_form"
        {| View.title := "Update Genre";
           View.genre := Some (Some {| _id := params_id req; name := n |});
           View.genre_books := None; View.genre_list := None;
           View.errors := None |}]).
Proof.
  intros Hw Hn. unfold genre_update_get, async_parallel1, bind.
  rewrite Genre_findById_ok by done.
  unfold genre_by_id. by rewrite Hn.
Qed.

(** X20. For an id the store holds, on a store whose calls succeed, the
    detail, delete-display and update-display handlers each answer with one
    render that shows the Genre of that id with the name the store has for
    it; the detail and the delete views get, in store order, exactly the
    Books whose genre is the id, and the update form gets no error list. *)
Theorem display_of_an_existing_genre (w : World) (req : Request) (n : string) :
  healthy w ->
  genres w !! params_id req = Some n ->
  let id := params_id req in
  let g := {| _id := id; name := n |} in
  exists bs : list Book,
    (forall b, b ∈ bs <-> b ∈ books w /\ book_genre b = id)
    /\ bs `sublist_of` books w
    /\ responses (trace (genre_detail req w)) =
         [Render "genre_detail"
            {| View.title := "Genre Detail"; View.genre := Some (Some g);
               View.genre_books := Some bs;
               View.genre_list := None; View.errors := None |}]
    /\ responses (trace (genre_delete_get req w)) =
         [Render "genre_delete"
            {| View.title := "Delete Genre"; View.genre := Some (Some g);
               View.genre_books := Some bs;
               View.genre_list := None; View.errors := None |}]
    /\ responses (trace (genre_update_get req w)) =
         [Render "genre_form"
            {| View.title := "Update Genre"; View.genre := Some (Some g);
               View.genre_books := None; View.genre_list := None;
               View.errors := None |}].
Proof.
  intros Hw Hn id g. exists (dependent_books w id).
  split; [|split].
  - intros b. unfold dependent_books. rewrite list_elem_of_filter. tauto.
  - apply sublist_filter.
  - rewrite (genre_detail_found w req n), (genre_delete_get_found w req n),
      (genre_update_get_found w req n) by done.
    done.
Qed.

Lemma display_of_an_existing_genre_witness :
  healthy library /\ genres library !! 1 = Some "Fiction" /\
  (exists bs : list Book,
     (forall b, b ∈ bs <-> b ∈ books library /\ book_genre b = 1)
     /\ responses (trace (genre_delete_get (request 1 EmptyString 0) library)) =
          [Render "genre_delete"
             {| View.title := "Delete Genre";
                View.genre := Some (Some {| _id := 1; name := "Fiction" |});
                View.genre_books := Some bs;
                View.genre_list := None; View.errors := None |}]).
Proof.
  assert (Hh : healthy library) by apply no_fault_healthy.
  assert (H1 : genres library !! 1 = Some "Fiction") by (vm_compute; reflexivity).
  destruct (display_of_an_existing_genre library (request 1 EmptyString 0) "Fiction" Hh H1)
    as (bs & Hbs & _ & _ & Hdel & _).
  split; [exact Hh|]. split; [exact H1|].
  exists bs. split; [exact Hbs|exact Hdel].
Defined.

(** ** Creating a name the store already has *)

Lemma singleton_of_all_equal {A} (l : list A) (x : A) :
  NoDup l -> x ∈ l -> (forall y, y ∈ l -> y = x) -> l = [x].
Proof.
  intros Hnd Hx Hall. destruct l as [|a l]; [by apply not_elem_of_nil in Hx|].
  assert (a = x) as -> by (apply Hall, list_elem_of_here).
  destruct l as [|b l]; [done|].
  assert (b = x) as -> by (apply Hall, list_elem_of_further, list_elem_of_here).
  apply NoDup_cons in Hnd as [Hnotin _]. destruct Hnotin. apply list_elem_of_here.
Qed.

Lemma named_filter_unique w j n :
  names_unique w -> genres w !! j = Some n ->
  filter (fun g => name g = n) (all_genres w) = [ {| _id := j; name := n |} ].
Proof.
  intros Huniq Hj. apply singleton_of_all_equal.
  - apply NoDup_filter, NoDup_all_genres.
  - apply list_elem_of_filter. split; [done|]. by apply elem_of_all_genres.
  - intros [i m] [Hname Hin]%list_elem_of_filter. simpl in Hname. subst m.
    apply elem_of_all_genres in Hin. simpl in Hin.
    by rewrite (Huniq i j n Hin Hj).
Qed.

Lemma named_absent_or_present w n :
  (forall i, genres w !! i <> Some n) \/ (exists i, genres w !! i = Some n).
Proof.
  destruct (filter (fun g => name g = n) (all_genres w)) as [|g rest] eqn:Hf.
  - left. intros i Hi. destruct (named_present w n i Hi) as (j & _ & Hhead).
    rewrite Hf in Hhead. discriminate Hhead.
  - right. exists (_id g).
    assert (Hg : g ∈ filter (fun g => name g = n) (all_genres w))
      by (rewrite Hf; apply list_elem_of_here).
    apply list_elem_of_filter in Hg as [Hname Hin].
    apply elem_of_all_genres in Hin. by rewrite Hin, Hname.
Qed.

Lemma create_post_refused_insert w id raw gid taken :
  healthy w -> 2 <= String.length (Validator.trim raw) ->
  (forall i, genres w !! i <> Some (sanitized raw)) ->
  genres w !! next_oid w = Some taken ->
  dispatch genre_create_post (request id raw gid) w =
    (tt, draw_oid w,
     [Store (Genre_findOne_name (sanitized raw));
      Store (Genre_save {| _id := next_oid w; name := sanitized raw |});
      Next duplicate_key]).
Proof.
  intros Hw Hlong Habsent Htaken. rewrite genre_create_post_accepted by done.
  unfold genre_create_post_handler, validationResult, bind. simpl.
  rewrite Genre_findOne_ok by by apply healthy_draw_oid.
  change (all_genres (draw_oid w)) with (all_genres w).
  rewrite (named_absent w _ Habsent). simpl.
  unfold Genre_save_exec, exec. simpl. by rewrite Hw, Htaken.
Qed.

(** On a store whose names came through the create chain, a request whose
    sanitized name is the name of a Genre has passed the length check. *)
Lemma existing_name_has_passed_validation (raw stored n : string) :
  2 <= String.length (Validator.trim stored) ->
  n = sanitized stored -> sanitized raw = n ->
  2 <= String.length (Validator.trim raw).
Proof.
  intros Hlong -> Heq. unfold sanitized in Heq.
  by rewrite (escape_inj _ _ Heq).
Qed.

Lemma create_post_again w id raw gid loc req :
  healthy w -> 2 <= String.length (Validator.trim raw) ->
  names_unique w ->
  responses (trace (dispatch genre_create_post (request id raw gid) w)) =
    [Redirect loc] ->
  let r1 := dispatch genre_create_post (request id raw gid) w in
  let r2 := dispatch genre_create_post (request id raw gid) (world_after r1) in
  trace r2 = [Store (Genre_findOne_name (sanitized raw)); Redirect loc]
  /\ genres (world_after r2) = genres (world_after r1)
  /\ exists l g,
       trace (genre_list req (world_after r2)) =
         [Store Genre_find_sort_name_ascending;
          Render "genre_list"
            {| View.title := "Genre List"; View.genre := None;
               View.genre_books := None; View.genre_list := Some l;
               View.errors := None |}]
       /\ filter (fun g => name g = sanitized raw) l = [g]
       /\ url g = loc.
Proof.
  intros Hw Hlong Huniq Hloc r1 r2. subst r1 r2.
  destruct (named_absent_or_present w (sanitized raw)) as [Habsent|[j Hj]].
  - destruct (genres w !! next_oid w) as [taken|] eqn:Hfresh.
    { rewrite (create_post_refused_insert w id raw gid taken) in Hloc by done.
      discriminate Hloc. }
    destruct (create_post_twice w id raw gid req Hw Hlong Habsent Hfresh)
      as (Ht1 & Ht2 & _ & Hsame & l & Hlist & Hfilter).
    rewrite Ht1 in Hloc. injection Hloc as <-.
    split; [done|]. split; [done|]. by exists l, {| _id := next_oid w; name := sanitized raw |}.
  - pose proof (named_filter_unique w j _ Huniq Hj) as Hfilter.
    assert (Hhead : head (filter (fun g => name g = sanitized raw) (all_genres w))
                    = Some {| _id := j; name := sanitized raw |}) by by rewrite Hfilter.
    rewrite (create_post_found w id raw gid _ Hw Hlong Hhead) in *.
    injection Hloc as <-.
    change (world_after (tt, draw_oid w, _)) with (draw_oid w).
    rewrite (create_post_found (draw_oid w) id raw gid {| _id := j; name := sanitized raw |});
      [|by apply healthy_draw_oid|done|done].
    split; [done|]. split; [done|].
    exists (merge_sort name_le (all_genres w)), {| _id := j; name := sanitized raw |}.
    split; [|split; [|done]].
    + by rewrite genre_list_ok by by do 2 apply healthy_draw_oid.
    + apply Permutation_singleton_r. by rewrite merge_sort_Permutation, Hfilter.
Qed.

Lemma library_names_unique : names_unique library.
Proof.
  intros i j n Hi Hj.
  apply (elem_of_map_to_list (genres library)) in Hi, Hj.
  vm_compute in Hi, Hj.
  repeat (apply elem_of_cons in Hi as [Hi|Hi]; [injection Hi as -> ->|]);
    try (by apply not_elem_of_nil in Hi);
    repeat (apply elem_of_cons in Hj as [Hj|Hj];
            [first [discriminate Hj | by injection Hj]|]);
    by apply not_elem_of_nil in Hj.
Qed.

(** C3. A create-submit request whose name has passed validation and whose
    sanitized name is the name of a Genre of the store inserts nothing and
    hands nothing to [next]: after the lookup by name the one response is
    the redirect to the detail location of a Genre of that name (of the
    existing Genre itself when names are unique in the store), and the
    collections are as before.  So on a store with unique names, once a
    create of a name has been answered with a redirect, creating the same
    name again is answered with the redirect to the same location and
    changes no Genre, and the list that follows shows exactly one Genre of
    that name, the one at that location. *)
Theorem create_post_of_existing_valid_name_redirects
    (w : World) (id gid : Id) (raw : string) :
  healthy w ->
  2 <= String.length (Validator.trim raw) ->
  let r1 := dispatch genre_create_post (request id raw gid) w in
  (forall i, genres w !! i = Some (sanitized raw) ->
     exists j, genres w !! j = Some (sanitized raw)
       /\ (names_unique w -> j = i)
       /\ r1 = (tt, draw_oid w,
                [Store (Genre_findOne_name (sanitized raw));
                 Redirect ("/catalog/genre/" +:+ pretty j)])
       /\ genres (draw_oid w) = genres w /\ books (draw_oid w) = books w)
  /\ (names_unique w ->
      forall loc, responses (trace r1) = [Redirect loc] ->
      forall req,
      let r2 := dispatch genre_create_post (request id raw gid) (world_after r1) in
      trace r2 = [Store (Genre_findOne_name (sanitized raw)); Redirect loc]
      /\ genres (world_after r2) = genres (world_after r1)
      /\ exists l g,
           trace (genre_list req (world_after r2)) =
             [Store Genre_find_sort_name_ascending;
              Render "genre_list"
                {| View.title := "Genre List"; View.genre := None;
                   View.genre_books := None; View.genre_list := Some l;
                   View.errors := None |}]
           /\ filter (fun g => name g = sanitized raw) l = [g]
           /\ url g = loc).
Proof.
  intros Hw Hlong r1. subst r1. split.
  - intros i Hi. destruct (named_present w _ i Hi) as (j & Hj & Hhead).
    exists j. split; [done|]. split; [intros Huniq; exact (Huniq j i _ Hj Hi)|].
    split; [|done].
    by rewrite (create_post_found w id raw gid _ Hw Hlong Hhead).
  - intros Huniq loc Hloc req. by apply create_post_again.
Qed.

Lemma create_post_of_existing_valid_name_redirects_witness :
  healthy library /\ 2 <= String.length (Validator.trim " Fiction ") /\
  genres library !! 1 = Some (sanitized " Fiction ") /\
  names_unique library /\
  responses (trace (dispatch genre_create_post (request 0 " Fiction " 0) library)) =
    [Redirect "/catalog/genre/1"] /\
  (let r1 := dispatch genre_create_post (request 0 " Fiction " 0) library in
   let r2 := dispatch genre_create_post (request 0 " Fiction " 0) (world_after r1) in
   responses (trace r2) = [Redirect "/catalog/genre/1"] /\
   genres (world_after r2) = genres library /\
   exists l g,
     trace (genre_list (request 0 EmptyString 0) (world_after r2)) =
       [Store Genre_find_sort_name_ascending;
        Render "genre_list"
          {| View.title := "Genre List"; View.genre := None;
             View.genre_books := None; View.genre_list := Some l;
             View.errors := None |}]
     /\ filter (fun g => name g = "Fiction") l = [g]
     /\ url g = "/catalog/genre/1").
Proof.
  assert (Hh : healthy library) by apply no_fault_healthy.
  assert (Hl : 2 <= String.length (Validator.trim " Fiction ")) by (vm_compute; lia).
  assert (Hi : genres library !! 1 = Some (sanitized " Fiction "))
    by (vm_compute; reflexivity).
  pose proof library_names_unique as Hu.
  destruct (create_post_of_existing_valid_name_redirects library 0 0 " Fiction " Hh Hl)
    as [Hfound Htwice].
  destruct (Hfound 1 Hi) as (j & Hj & Hsame & Hrun & _).
  rewrite (Hsame Hu) in Hrun.
  assert (Hloc : responses (trace (dispatch genre_create_post
                                     (request 0 " Fiction " 0) library))
                 = [Redirect "/catalog/genre/1"]) by (rewrite Hrun; reflexivity).
  destruct (Htwice Hu _ Hloc (request 0 EmptyString 0)) as (Ht2 & Hg2 & l & g & Hlist & Hf & Hurl).
  split; [exact Hh|]. split; [exact Hl|]. split; [exact Hi|]. split; [exact Hu|].
  split; [exact Hloc|]. cbv zeta in *.
  split; [by rewrite Ht2|]. split; [by rewrite Hg2, Hrun|].
  exists l, g. split; [exact Hlist|]. split; [exact Hf|exact Hurl].
Defined.

(** ** The lookup and the insert of a create are two steps *)

Lemma create_handler_is_lookup_then_callback req w :
  validation_errors req = [] ->
  genre_create_post_handler req w =
    (a <- create_post_issue_lookup req ;; create_post_on_lookup a.1 a.2) w.
Proof.
  intros Hv. unfold create_post_issue_lookup, create_post_on_lookup.
  unfold_handlers. rewrite Hv. simpl.
  repeat handler_case; reflexivity.
Qed.

Lemma names_unique_insert w k n :
  names_unique w -> (forall i, genres w !! i <> Some n) ->
  names_unique (set_genres w (<[k := n]> (genres w))).
Proof.
  intros Huniq Habsent i j m. simpl.
  destruct (decide (i = k)) as [->|Hi]; destruct (decide (j = k)) as [->|Hj]; [done| | |].
  - rewrite lookup_insert_eq, lookup_insert_ne by done.
    intros [= <-] Hj'. by destruct (Habsent j).
  - rewrite lookup_insert_eq, lookup_insert_ne by done.
    intros Hi' [= <-]. by destruct (Habsent i).
  - rewrite !lookup_insert_ne by done. apply Huniq.
Qed.

Lemma on_lookup_keeps_names_unique w req genre r w1 t w2 :
  create_post_issue_lookup req w = ((genre, r), w1, t) ->
  genres w2 = genres w1 ->
  names_unique w2 ->
  names_unique (world_after (create_post_on_lookup genre r w2)).
Proof.
  unfold create_post_issue_lookup. unfold_handlers.
  destruct (fault w _); simpl.
  { intros [= <- <- <- <-] _ Huniq. done. }
  destruct (head _) as [found|] eqn:Hhead; simpl.
  { intros [= <- <- <- <-] _ Huniq. done. }
  intros [= <- <- <- <-] Hsame Huniq. unfold create_post_on_lookup. unfold_handlers.
  destruct (fault w2 _); simpl; [done|].
  destruct (genres w2 !! next_oid w); simpl; [done|].
  apply names_unique_insert; [done|].
  intros i Hi. rewrite Hsame in Hi. simpl in Hi.
  destruct (named_present w _ i Hi) as (j & _ & Hfound).
  change (head (filter (fun g => name g = body_name req) (all_genres w)) = None) in Hhead.
  rewrite Hhead in Hfound. discriminate Hfound.
Qed.

Lemma issue_lookup_absent w req :
  healthy w ->
  filter (fun g => name g = body_name req) (all_genres w) = [] ->
  create_post_issue_lookup req w =
    (({| _id := next_oid w; name := body_name req |}, inr None), draw_oid w,
     [Store (Genre_findOne_name (body_name req))]).
Proof.
  intros Hw Hnone. unfold create_post_issue_lookup, new_Genre, bind, ret.
  rewrite Genre_findOne_ok by by apply healthy_draw_oid.
  change (all_genres (draw_oid w)) with (all_genres w). by rewrite Hnone.
Qed.

Lemma on_lookup_insert g w :
  healthy w -> genres w !! _id g = None ->
  create_post_on_lookup g (inr None) w =
    (tt, set_genres w (<[_id g := name g]> (genres w)),
     [Store (Genre_save g); Redirect (url g)]).
Proof.
  intros Hw Hfree. unfold create_post_on_lookup, bind.
  by rewrite Genre_save_ok.
Qed.

Lemma interleaved_creates_duplicate w id gid raw :
  healthy w -> 2 <= String.length (Validator.trim raw) ->
  (forall i, genres w !! i <> Some (sanitized raw)) ->
  genres w !! next_oid w = None ->
  genres w !! S (next_oid w) = None ->
  let first := {| _id := next_oid w; name := sanitized raw |} in
  let second := {| _id := S (next_oid w); name := sanitized raw |} in
  let r := create_post_interleaved (validated id raw gid) (validated id raw gid) w in
  trace r =
    [Store (Genre_findOne_name (sanitized raw));
     Store (Genre_findOne_name (sanitized raw));
     Store (Genre_save first); Redirect (url first);
     Store (Genre_save second); Redirect (url second)]
  /\ genres (world_after r) =
       <[S (next_oid w) := sanitized raw]> (<[next_oid w := sanitized raw]> (genres w)).
Proof.
  intros Hw Hlong Habsent Hf1 Hf2 first second r. subst r.
  unfold validated. rewrite name_chain_run.
  apply isLength_true in Hlong. rewrite Hlong.
  pose proof (named_absent w _ Habsent) as Hnone.
  unfold create_post_interleaved, bind.
  rewrite issue_lookup_absent by done.
  rewrite issue_lookup_absent by (by apply healthy_draw_oid || exact Hnone).
  cbn [fst snd body_name next_oid draw_oid]. fold first second.
  rewrite (on_lookup_insert first) by (by do 2 apply healthy_draw_oid || exact Hf1).
  rewrite (on_lookup_insert second).
  - done.
  - by apply healthy_set_genres; do 2 apply healthy_draw_oid.
  - simpl. by rewrite lookup_insert_ne by lia.
Qed.

(** X18. The handler of a valid create request is its lookup by name
    followed by the callback of that lookup, and the callback inserts only
    when the lookup found no Genre of the name.  So when no Genre is written
    between the lookup and its callback, a store with unique names keeps
    them unique.  The two steps are not one: when two creates of one new
    name both have their lookups answered before either callback runs, each
    callback inserts, and the store holds two Genres of that name. *)
Theorem create_post_check_then_insert_is_not_atomic
    (w : World) (id gid : Id) (raw : string) :
  (forall req w0,
     validation_errors req = [] ->
     genre_create_post_handler req w0 =
       (a <- create_post_issue_lookup req ;; create_post_on_lookup a.1 a.2) w0)
  /\ (forall req w0 genre r w1 t w2,
        create_post_issue_lookup req w0 = ((genre, r), w1, t) ->
        genres w2 = genres w1 ->
        names_unique w2 ->
        names_unique (world_after (create_post_on_lookup genre r w2)))
  /\ (healthy w ->
      2 <= String.length (Validator.trim raw) ->
      (forall i, genres w !! i <> Some (sanitized raw)) ->
      genres w !! next_oid w = None ->
      genres w !! S (next_oid w) = None ->
      let first := {| _id := next_oid w; name := sanitized raw |} in
      let second := {| _id := S (next_oid w); name := sanitized raw |} in
      let r := create_post_interleaved (validated id raw gid) (validated id raw gid) w in
      trace r =
        [Store (Genre_findOne_name (sanitized raw));
         Store (Genre_findOne_name (sanitized raw));
         Store (Genre_save first); Redirect (url first);
         Store (Genre_save second); Redirect (url second)]
      /\ genres (world_after r) !! next_oid w = Some (sanitized raw)
      /\ genres (world_after r) !! S (next_oid w) = Some (sanitized raw)
      /\ ~ names_unique (world_after r)).
Proof.
  split; [intros req w0; apply create_handler_is_lookup_then_callback|].
  split; [intros req w0 genre r w1 t w2; apply on_lookup_keeps_names_unique|].
  intros Hw Hlong Habsent Hf1 Hf2 first second r.
  destruct (interleaved_creates_duplicate w id gid raw Hw Hlong Habsent Hf1 Hf2)
    as [Htrace Hgenres].
  fold first second r in Htrace, Hgenres.
  assert (H1 : genres (world_after r) !! next_oid w = Some (sanitized raw)).
  { rewrite Hgenres, lookup_insert_ne by lia. apply lookup_insert_eq. }
  assert (H2 : genres (world_after r) !! S (next_oid w) = Some (sanitized raw)).
  { rewrite Hgenres. apply lookup_insert_eq. }
  split; [done|]. split; [done|]. split; [done|].
  intros Huniq. specialize (Huniq _ _ _ H1 H2). lia.
Qed.

Lemma create_post_check_then_insert_is_not_atomic_witness :
  healthy empty_world /\ 2 <= String.length (Validator.trim "Fiction") /\
  genres empty_world !! 0 = None /\ genres empty_world !! 1 = None /\
  (let r := create_post_interleaved (validated 0 "Fiction" 0) (validated 0 "Fiction" 0)
              empty_world in
   genres (world_after r) !! 0 = Some "Fiction" /\
   genres (world_after r) !! 1 = Some "Fiction" /\
   ~ names_unique (world_after r)) /\
  names_unique
    (world_after (create_post_on_lookup {| _id := 0; name := "Fiction" |} (inr None)
                    (draw_oid empty_world))).
Proof.
  assert (Hh : healthy empty_world) by apply no_fault_healthy.
  assert (Hl : 2 <= String.length (Validator.trim "Fiction")) by (vm_compute; lia).
  assert (Hf : forall i, genres empty_world !! i = None)
    by (intros i; simpl; by rewrite lookup_empty).
  assert (Hn : forall i, genres empty_world !! i <> Some (sanitized "Fiction"))
    by (intros i; by rewrite Hf).
  assert (Hu : names_unique (draw_oid empty_world)).
  { intros i j n Hi. simpl in Hi. by rewrite lookup_empty in Hi. }
  destruct (create_post_check_then_insert_is_not_atomic empty_world 0 0 "Fiction")
    as (_ & Hatomic & Hinter).
  destruct (Hinter Hh Hl Hn (Hf 0) (Hf 1)) as (_ & H0 & H1 & Hdup).
  split; [exact Hh|]. split; [exact Hl|]. split; [exact (Hf 0)|]. split; [exact (Hf 1)|].
  split; [split; [exact H0|split; [exact H1|exact Hdup]]|].
  exact (Hatomic (validated 0 "Fiction" 0) empty_world _ _ _ _ (draw_oid empty_world)
           eq_refl eq_refl Hu).
Defined.
